(** * The Kubernetes service-registry controller of Pilot

    A shallow embedding of [platform/kube/controller.go]: the watch-synchronized
    controller that mirrors Services, Endpoints, Pods and Nodes and joins them
    into the service catalog ([Services], [GetService], [Instances],
    [GetIstioServiceAccounts]) and into change notifications
    ([AppendServiceHandler], [AppendInstanceHandler]).

    Conventions of the embedding:
    - Go strings are [string], Go [int]/[int32] are [Z], Go maps with string
      keys are [gmap string _]; a nil map and an empty map are both [∅], a nil
      slice and an empty slice are both [[]].
    - A pointer that may be nil is an [option].
    - An informer is its observable state: the [HasSynced] flag and the
      contents of its store.  The order of a store's list stands for the order
      in which [List()] happens to return the items.
    - Callbacks registered by consumers are opaque to the controller; a run of
      a handler records each call (which callback, which arguments) in a trace.
    - A failed type assertion is a panic, kept apart from a returned error. *)

From Stdlib Require Import ZArith Ascii String List.
From stdpp Require Import base gmap strings list.

Local Open Scope string_scope.
Local Open Scope list_scope.

(** ** Kubernetes API objects ([k8s.io/client-go/pkg/api/v1]) *)
Module v1.

Record ObjectMeta := {
  Name : string;
  Namespace : string;
  Labels : gmap string string
}.

Record ServicePort := {
  ServicePort_Name : string;
  ServicePort_Protocol : string;
  ServicePort_Port : Z
}.

Record Service := {
  Service_ObjectMeta : ObjectMeta;
  Service_ClusterIP : string;
  Service_Ports : list ServicePort
}.

Record EndpointAddress := { IP : string }.

Record EndpointPort := {
  EndpointPort_Name : string;
  EndpointPort_Port : Z
}.

Record EndpointSubset := {
  Addresses : list EndpointAddress;
  Ports : list EndpointPort
}.

Record Endpoints := {
  Endpoints_ObjectMeta : ObjectMeta;
  Subsets : list EndpointSubset
}.

Record PodSpec := {
  NodeName : string;
  ServiceAccountName : string
}.

Record Pod := {
  Pod_ObjectMeta : ObjectMeta;
  Spec : PodSpec;
  PodIP : string
}.

Record Node := { Node_ObjectMeta : ObjectMeta }.

#[global] Instance ObjectMeta_eq_dec : EqDecision ObjectMeta.
Proof. solve_decision. Defined.
#[global] Instance ServicePort_eq_dec : EqDecision ServicePort.
Proof. solve_decision. Defined.
#[global] Instance Service_eq_dec : EqDecision Service.
Proof. solve_decision. Defined.
#[global] Instance EndpointAddress_eq_dec : EqDecision EndpointAddress.
Proof. solve_decision. Defined.
#[global] Instance EndpointPort_eq_dec : EqDecision EndpointPort.
Proof. solve_decision. Defined.
#[global] Instance EndpointSubset_eq_dec : EqDecision EndpointSubset.
Proof. solve_decision. Defined.
#[global] Instance Endpoints_eq_dec : EqDecision Endpoints.
Proof. solve_decision. Defined.
#[global] Instance PodSpec_eq_dec : EqDecision PodSpec.
Proof. solve_decision. Defined.
#[global] Instance Pod_eq_dec : EqDecision Pod.
Proof. solve_decision. Defined.
#[global] Instance Node_eq_dec : EqDecision Node.
Proof. solve_decision. Defined.

End v1.

(** ** The service model ([istio.io/pilot/model]) *)
Module model.

Inductive Event := EventAdd | EventUpdate | EventDelete.

Record Port := {
  Port_Name : string;
  Port_Port : Z;
  Port_Protocol : string
}.

Definition PortList := list Port.

Record Service := {
  Hostname : string;
  Service_Address : string;
  Ports : PortList
}.

(** [Tags] is a label map, [TagsList] a list of them. *)
Definition TagsList := list (gmap string string).

Record NetworkEndpoint := {
  Address : string;
  Endpoint_Port : Z;
  ServicePort : option Port
}.

Record ServiceInstance := {
  Endpoint : NetworkEndpoint;
  Service_ : option Service;
  Tags : gmap string string;
  AvailabilityZone : string
}.

#[global] Instance Event_eq_dec : EqDecision Event.
Proof. solve_decision. Defined.
#[global] Instance Port_eq_dec : EqDecision Port.
Proof. solve_decision. Defined.
#[global] Instance Service_eq_dec : EqDecision Service.
Proof. solve_decision. Defined.
#[global] Instance NetworkEndpoint_eq_dec : EqDecision NetworkEndpoint.
Proof. solve_decision. Defined.
#[global] Instance ServiceInstance_eq_dec : EqDecision ServiceInstance.
Proof. solve_decision. Defined.

(** The zero values of the structs ([model.NetworkEndpoint{}] is what a
    composite literal leaves in a field it does not name). *)
Definition NetworkEndpoint_zero : NetworkEndpoint :=
  {| Address := ""; Endpoint_Port := 0%Z; ServicePort := None |}.

(** Modelled from the spec: [PortList.Get] of the model package is absent;
    a service has an "ordered set of named ports (name unique per service)"
    and a named port "resolves" by its name. *)
Fixpoint PortList_Get (ports : PortList) (name : string) : option Port :=
  match ports with
  | [] => None
  | port :: rest =>
      if decide (Port_Name port = name) then Some port
      else PortList_Get rest name
  end.

(** Modelled from the spec: [Tags.SubsetOf] is absent; "filter tags must be
    a subset of the instance's tags". *)
Definition Tags_SubsetOf (t that : gmap string string) : bool :=
  bool_decide (t ⊆ that).

(** Modelled from the spec: [TagsList.HasSubsetOf] is absent; the filter
    matches when one of its tag sets is a subset of the instance's tags
    (the caller's comment: "one of the input tags is a subset of the
    tags"), and "an empty filter matches everything". *)
Definition HasSubsetOf (tags : TagsList) (that : gmap string string) : bool :=
  match tags with
  | [] => true
  | _ => existsb (fun t => Tags_SubsetOf t that) tags
  end.

End model.

(** ** Informers and their stores ([k8s.io/client-go/tools/cache]) *)
Module cache.

(** A keyed store; [GetByKey] of the thread-safe store never fails. *)
Definition Store (T : Type) := list (string * T).

Fixpoint GetByKey {T} (s : Store T) (key : string) : option T :=
  match s with
  | [] => None
  | (k, item) :: rest =>
      if decide (k = key) then Some item else GetByKey rest key
  end.

Definition List {T} (s : Store T) : list T := map snd s.

Record SharedIndexInformer (T : Type) := {
  HasSynced : bool;
  GetStore : Store T
}.
Arguments HasSynced {T} _.
Arguments GetStore {T} _.

End cache.

(** ** Helpers of the package that live in [conversion.go] *)
Module conversion.

(** Modelled from the spec: [serviceHostname] (conversion.go) is absent;
    "hostname = <name>.<namespace>.<suffix>". *)
Definition serviceHostname (name namespace domainSuffix : string) : string :=
  name +:+ "." +:+ namespace +:+ "." +:+ domainSuffix.

(** [Split s] cuts [s] at every ".", as [strings.Split(s, ".")] does: a
    string without "." is its own single part. *)
Fixpoint Split (s : string) : list string :=
  match s with
  | EmptyString => [""]
  | String c rest =>
      if decide (c = "."%char) then "" :: Split rest
      else match Split rest with
           | part :: parts => String c part :: parts
           | [] => [String c ""]
           end
  end.

(** Modelled from the spec: [parseHostname] (conversion.go) is absent;
    [getService] "parses hostname into name+namespace", the first two of the
    dot-separated parts of "<name>.<namespace>.<suffix>"; a hostname that
    has no two parts is rejected ([None] stands for the returned error). *)
Definition parseHostname (hostname : string) : option (string * string) :=
  match Split hostname with
  | name :: namespace :: _ => Some (name, namespace)
  | _ => None
  end.

(** Modelled from the spec: [KeyFunc] (conversion.go) is absent; the mirrors
    are "namespace/name-keyed". *)
Definition KeyFunc (name namespace : string) : string :=
  namespace +:+ "/" +:+ name.

(** Modelled from the spec: [convertService] (conversion.go) is absent; a
    Service is "derived on read from a Service mirror entry" as the hostname
    (name, namespace, domain suffix) and the ordered named ports.  The spec
    does not say which entries fail conversion; this model rejects none and
    only serves to run the controller on examples. *)
Definition convertService (svc : v1.Service) (domainSuffix : string)
  : option model.Service :=
  let meta := v1.Service_ObjectMeta svc in
  Some {| model.Hostname :=
            serviceHostname (v1.Name meta) (v1.Namespace meta) domainSuffix;
          model.Service_Address := v1.Service_ClusterIP svc;
          model.Ports :=
            map (fun p => {| model.Port_Name := v1.ServicePort_Name p;
                             model.Port_Port := v1.ServicePort_Port p;
                             model.Port_Protocol := v1.ServicePort_Protocol p |})
                (v1.Service_Ports svc) |}.

(** [Join parts] puts a "." between the parts, as
    [strings.Join(parts, ".")] does. *)
Fixpoint Join (parts : list string) : string :=
  match parts with
  | [] => ""
  | [part] => part
  | part :: rest => part +:+ "." +:+ Join rest
  end.

(** A name that holds no "." (a DNS label, as the names and namespaces of
    Kubernetes services are). *)
Fixpoint dotless (s : string) : bool :=
  match s with
  | EmptyString => true
  | String c rest => if decide (c = "."%char) then false else dotless rest
  end.

End conversion.

(** ** Objects, tasks, handlers *)

(** What an [interface{}] handed to a handler may hold: a pointer to an
    object of one of the four kinds, or the tombstone
    [cache.DeletedFinalStateUnknown{Key, Obj}] that an informer hands to
    its [DeleteFunc] when it missed the delete and only knows the key and
    the last state of the object. *)
Inductive Obj :=
| ObjService (svc : v1.Service)
| ObjEndpoints (ep : v1.Endpoints)
| ObjPod (pod : v1.Pod)
| ObjNode (node : v1.Node)
| ObjDeletedFinalStateUnknown (key : string) (obj : Obj).

#[global] Instance Obj_eq_dec : EqDecision Obj.
Proof. solve_decision. Defined.

(** [reflect.DeepEqual] on two objects. *)
Definition DeepEqual (old cur : Obj) : bool := bool_decide (old = cur).

(** The four mirrors; a task refers to the handler chain of its mirror. *)
Inductive Kind := KindService | KindEndpoints | KindNode | KindPod.

Record Task := {
  Task_handler : Kind;
  Task_obj : Obj;
  Task_event : model.Event
}.

(** Modelled from the spec: [Queue] (queue.go) is absent; "push(task):
    non-blocking enqueue", tasks are "processed in the order enqueued". *)
Definition Queue := list Task.

Definition Push (q : Queue) (item : Task) : Queue := q ++ [item].

(** A consumer's callback is opaque; it is known by the order of its
    registration, and calling it leaves a record in the trace. *)
Definition Callback := nat.

Inductive Call :=
| ServiceCall (f : Callback) (svc : model.Service) (event : model.Event)
| InstanceCall (f : Callback) (si : model.ServiceInstance) (event : model.Event).

#[global] Instance Call_eq_dec : EqDecision Call.
Proof. solve_decision. Defined.

(** The closures that [controller.go] puts into handler chains. *)
Inductive Handler :=
| Handler_notify
| Handler_service (f : Callback)
| Handler_instance (f : Callback).

(** How a handler ends: it returns its error (nil is [None]), or a type
    assertion in it panics. *)
Inductive Outcome :=
| Return (err : option string)
| Panic.

(** Modelled from the spec: [ChainHandler] (queue.go) is absent; "append(stage):
    adds a stage to the end of the chain", and [Apply] "invokes every stage in
    order; the first stage to fail aborts the remaining stages". *)
Record ChainHandler := { funcs : list Handler }.

Definition Append (ch : ChainHandler) (h : Handler) : ChainHandler :=
  {| funcs := funcs ch ++ [h] |}.

Fixpoint Apply_funcs (run : Handler -> list Call -> list Call * Outcome)
    (hs : list Handler) (trace : list Call) : list Call * Outcome :=
  match hs with
  | [] => (trace, Return None)
  | h :: rest =>
      match run h trace with
      | (trace', Return None) => Apply_funcs run rest trace'
      | stopped => stopped
      end
  end.

(** ** The controller *)

Record cacheHandler (T : Type) := {
  informer : cache.SharedIndexInformer T;
  handler : ChainHandler
}.
Arguments informer {T} _.
Arguments handler {T} _.

(** Modelled from the spec: [PodCache] (pod.go) is absent; the Pod index maps
    an "IP address (key, unique)" to the "pod key (namespace/name)", next to
    the Pod mirror itself ([c.pods.keys] and [c.pods.informer] in the
    controller). *)
Record PodCache := {
  PodCache_cacheHandler : cacheHandler v1.Pod;
  keys : gmap string string
}.

(** [ControllerOptions] stores the configurable attributes of a
    [Controller]. *)
Record ControllerOptions := {
  Options_Namespace : string;
  ResyncPeriod : Z;
  DomainSuffix : string
}.

(** The fields [mesh] and [client] play no part in the catalog and are left
    out. *)
Record Controller := {
  domainSuffix : string;
  queue : Queue;
  services : cacheHandler v1.Service;
  endpoints : cacheHandler v1.Endpoints;
  nodes : cacheHandler v1.Node;
  pods : PodCache
}.

(** Modelled from the spec: [getPodByIP] (pod.go) is absent; the address is
    looked up in the index and its pod key in the Pod mirror. *)
Definition getPodByIP (pc : PodCache) (addr : string) : option v1.Pod :=
  match keys pc !! addr with
  | None => None
  | Some key =>
      cache.GetByKey (cache.GetStore (informer (PodCache_cacheHandler pc))) key
  end.

(** Modelled from the spec: [tagsByIP] (pod.go) is absent;
    "lookupByAddress(ip) -> (tags, found)", the tags being the pod's labels. *)
Definition tagsByIP (pc : PodCache) (addr : string)
  : gmap string string * bool :=
  match getPodByIP pc addr with
  | None => (∅, false)
  | Some pod => (v1.Labels (v1.Pod_ObjectMeta pod), true)
  end.

Definition NodeRegionLabel : string := "failure-domain.beta.kubernetes.io/region".
Definition NodeZoneLabel : string := "failure-domain.beta.kubernetes.io/zone".

Definition uriScheme : string := "spiffe".

(** A name that holds no "/" (a DNS label, as the namespaces of Kubernetes
    are). *)
Fixpoint slashless (s : string) : bool :=
  match s with
  | EmptyString => true
  | String c rest => if decide (c = "/"%char) then false else slashless rest
  end.

(** ** A small cluster to run the controller on *)
Module example.

Definition webService : v1.Service :=
  {| v1.Service_ObjectMeta :=
       {| v1.Name := "web"; v1.Namespace := "default"; v1.Labels := ∅ |};
     v1.Service_ClusterIP := "10.96.0.10";
     v1.Service_Ports :=
       [ {| v1.ServicePort_Name := "http"; v1.ServicePort_Protocol := "TCP";
            v1.ServicePort_Port := 80 |};
         {| v1.ServicePort_Name := "grpc"; v1.ServicePort_Protocol := "TCP";
            v1.ServicePort_Port := 90 |} ] |}.

(** The service of the catalog that [webService] converts to. *)
Definition webHttp : model.Port :=
  {| model.Port_Name := "http"; model.Port_Port := 80;
     model.Port_Protocol := "TCP" |}.

Definition webGrpc : model.Port :=
  {| model.Port_Name := "grpc"; model.Port_Port := 90;
     model.Port_Protocol := "TCP" |}.

Definition web : model.Service :=
  {| model.Hostname := "web.default.cluster.local";
     model.Service_Address := "10.96.0.10";
     model.Ports := [ webHttp; webGrpc ] |}.

Definition webAddress : v1.EndpointAddress := {| v1.IP := "10.0.0.1" |}.

Definition webSubset : v1.EndpointSubset :=
  {| v1.Addresses := [ webAddress ];
     v1.Ports :=
       [ {| v1.EndpointPort_Name := "http"; v1.EndpointPort_Port := 80 |};
         {| v1.EndpointPort_Name := "grpc"; v1.EndpointPort_Port := 90 |} ] |}.

Definition webEndpoints : v1.Endpoints :=
  {| v1.Endpoints_ObjectMeta :=
       {| v1.Name := "web"; v1.Namespace := "default"; v1.Labels := ∅ |};
     v1.Subsets := [ webSubset ] |}.

Definition webTags : gmap string string :=
  <["version" := "v1"]> (<["env" := "prod"]> ∅).

Definition webPod : v1.Pod :=
  {| v1.Pod_ObjectMeta :=
       {| v1.Name := "web-1"; v1.Namespace := "default";
          v1.Labels := webTags |};
     v1.Spec := {| v1.NodeName := "node-1"; v1.ServiceAccountName := "bar" |};
     v1.PodIP := "10.0.0.1" |}.

Definition node1 : v1.Node :=
  {| v1.Node_ObjectMeta :=
       {| v1.Name := "node-1"; v1.Namespace := "";
          v1.Labels :=
            <["failure-domain.beta.kubernetes.io/region" := "us-east1"]>
              (<["failure-domain.beta.kubernetes.io/zone" := "us-east1-b"]>
                 ∅) |} |}.

Definition mirror {T : Type} (synced : bool) (items : cache.Store T)
  : cacheHandler T :=
  {| informer := {| cache.HasSynced := synced; cache.GetStore := items |};
     handler := {| funcs := [Handler_notify] |} |}.

(** Every mirror has listed, the node of the pod included. *)
Definition synced : Controller :=
  {| domainSuffix := "cluster.local";
     queue := [];
     services := mirror true [("default/web", webService)];
     endpoints := mirror true [("default/web", webEndpoints)];
     nodes := mirror true [("node-1", node1)];
     pods := {| PodCache_cacheHandler :=
                  mirror true [("default/web-1", webPod)];
                keys := {[ "10.0.0.1" := "default/web-1" ]} |} |}.

(** [Run] starts the Service, Endpoints and Pod informers; the Node
    informer is created and read but never started, so it stays as
    [createInformer] left it. *)
Definition nodesNotListed : Controller :=
  {| domainSuffix := "cluster.local";
     queue := [];
     services := mirror true [("default/web", webService)];
     endpoints := mirror true [("default/web", webEndpoints)];
     nodes := mirror false [];
     pods := {| PodCache_cacheHandler :=
                  mirror true [("default/web-1", webPod)];
                keys := {[ "10.0.0.1" := "default/web-1" ]} |} |}.

(** The endpoints are known before the pod is indexed. *)
Definition podNotIndexed : Controller :=
  {| domainSuffix := "cluster.local";
     queue := [];
     services := mirror true [("default/web", webService)];
     endpoints := mirror true [("default/web", webEndpoints)];
     nodes := mirror true [("node-1", node1)];
     pods := {| PodCache_cacheHandler := mirror true [];
                keys := ∅ |} |}.

(** The controller as [NewController] leaves it: nothing listed yet. *)
Definition fresh : Controller :=
  {| domainSuffix := "cluster.local";
     queue := [];
     services := mirror false [];
     endpoints := mirror false [];
     nodes := mirror false [];
     pods := {| PodCache_cacheHandler := mirror false [];
                keys := ∅ |} |}.

(** The instance of the example: the address on the port "http". *)
Definition webInstance : model.ServiceInstance :=
  {| model.Endpoint :=
       {| model.Address := "10.0.0.1";
          model.Endpoint_Port := 80;
          model.ServicePort := Some webHttp |};
     model.Service_ := Some web;
     model.Tags := webTags;
     model.AvailabilityZone := "us-east1/us-east1-b" |}.

(** A key function for the objects of the example: namespace/name. *)
Definition keyOf (obj : Obj) : string + string :=
  let key meta := conversion.KeyFunc (v1.Name meta) (v1.Namespace meta) in
  match obj with
  | ObjService svc => inr (key (v1.Service_ObjectMeta svc))
  | ObjEndpoints ep => inr (key (v1.Endpoints_ObjectMeta ep))
  | ObjPod pod => inr (key (v1.Pod_ObjectMeta pod))
  | ObjNode node => inr (key (v1.Node_ObjectMeta node))
  | ObjDeletedFinalStateUnknown k _ => inr k
  end.

(** The tombstone of the service "web", as the Service informer delivers
    it after a missed delete. *)
Definition webTombstone : Obj :=
  ObjDeletedFinalStateUnknown "default/web" (ObjService webService).

End example.

Section Controller.

(** The helpers of [conversion.go] and the key function of client-go are
    not part of [controller.go]; the controller is defined, and its
    properties are proved, for whatever they compute.  [None] and [inl]
    stand for a returned error. *)
Variable parseHostname : string -> option (string * string).
Variable convertService : v1.Service -> string -> option model.Service.
Variable KeyFunc : string -> string -> string.
Variable DeletionHandlingMetaNamespaceKeyFunc : Obj -> string + string.

(** [HasSynced] returns true after the initial state synchronization. *)
Definition HasSynced (c : Controller) : bool :=
  if negb (cache.HasSynced (informer (services c)))
     || negb (cache.HasSynced (informer (endpoints c)))
     || negb (cache.HasSynced (informer (PodCache_cacheHandler (pods c))))
  then false
  else true.

(** [notify] is the first handler in the handler chain; both branches on
    the key only write to the log. *)
Definition notify (c : Controller) (obj : Obj) (event : model.Event)
  : option string :=
  if negb (HasSynced c) then Some "Waiting till full synchronization"
  else
    match DeletionHandlingMetaNamespaceKeyFunc obj with
    | inl err => None
    | inr k => None
    end.

(** [createInformer]: the new informer has nothing listed yet, and its
    chain starts with [notify]. *)
Definition createInformer {T : Type} : cacheHandler T :=
  {| informer := {| cache.HasSynced := false; cache.GetStore := [] |};
     handler := {| funcs := [Handler_notify] |} |}.

(** The three event handlers that [createInformer] installs on the
    informer of mirror [k]; each maps the queue before to the queue after. *)
Definition AddFunc (k : Kind) (obj : Obj) (q : Queue) : Queue :=
  Push q {| Task_handler := k; Task_obj := obj;
            Task_event := model.EventAdd |}.

Definition UpdateFunc (k : Kind) (old cur : Obj) (q : Queue) : Queue :=
  if negb (DeepEqual old cur)
  then Push q {| Task_handler := k; Task_obj := cur;
                 Task_event := model.EventUpdate |}
  else q.

Definition DeleteFunc (k : Kind) (obj : Obj) (q : Queue) : Queue :=
  Push q {| Task_handler := k; Task_obj := obj;
            Task_event := model.EventDelete |}.

(** What an informer delivers to its event handlers. *)
Inductive Notification :=
| OnAdd (obj : Obj)
| OnUpdate (old cur : Obj)
| OnDelete (obj : Obj).

Definition deliver (k : Kind) (q : Queue) (n : Notification) : Queue :=
  match n with
  | OnAdd obj => AddFunc k obj q
  | OnUpdate old cur => UpdateFunc k old cur q
  | OnDelete obj => DeleteFunc k obj q
  end.

(** [serviceByKey] retrieves a service by name and namespace. *)
Definition serviceByKey (c : Controller) (name namespace : string)
  : option v1.Service :=
  cache.GetByKey (cache.GetStore (informer (services c)))
                 (KeyFunc name namespace).

(** [Services] implements a service catalog operation. *)
Definition Services (c : Controller) : list model.Service :=
  flat_map (fun item =>
              match convertService item (domainSuffix c) with
              | Some svc => [svc]
              | None => []
              end)
           (cache.List (cache.GetStore (informer (services c)))).

(** [GetService] implements a service catalog operation. *)
Definition GetService (c : Controller) (hostname : string)
  : option model.Service :=
  match parseHostname hostname with
  | None => None
  | Some (name, namespace) =>
      match serviceByKey c name namespace with
      | None => None
      | Some item => convertService item (domainSuffix c)
      end
  end.

(** [getPodAZByIP] retrieves the pod's AZ using its IP. *)
Definition getPodAZByIP (c : Controller) (addr : string) : string * bool :=
  match getPodByIP (pods c) addr with
  | None => ("", false)
  | Some pod =>
      match cache.GetByKey (cache.GetStore (informer (nodes c)))
                           (v1.NodeName (v1.Spec pod)) with
      | None => ("", false)
      | Some node =>
          match v1.Labels (v1.Node_ObjectMeta node) !! NodeRegionLabel with
          | None => ("", false)
          | Some region =>
              match v1.Labels (v1.Node_ObjectMeta node) !! NodeZoneLabel with
              | None => ("", false)
              | Some zone => (region +:+ "/" +:+ zone, true)
              end
          end
      end
  end.

(** The ports of the service that the caller asked for, by name. *)
Definition locatePorts (svc : model.Service) (ports : list string)
  : gmap string model.Port :=
  foldl (fun svcPorts port =>
           match model.PortList_Get (model.Ports svc) port with
           | Some svcPort => <[port := svcPort]> svcPorts
           | None => svcPorts
           end)
        ∅ ports.

(** The innermost loop of [Instances]: the ports of a subset, by name. *)
Definition instancesOfAddress (svc : model.Service)
    (svcPorts : gmap string model.Port) (ss : v1.EndpointSubset)
    (ea : v1.EndpointAddress) (tags : gmap string string) (az : string)
  : list model.ServiceInstance :=
  flat_map (fun port =>
              match svcPorts !! v1.EndpointPort_Name port with
              | Some svcPort =>
                  [ {| model.Endpoint :=
                         {| model.Address := v1.IP ea;
                            model.Endpoint_Port := v1.EndpointPort_Port port;
                            model.ServicePort := Some svcPort |};
                       model.Service_ := Some svc;
                       model.Tags := tags;
                       model.AvailabilityZone := az |} ]
              | None => []
              end)
           (v1.Ports ss).

(** The loops over the subsets and the addresses of one Endpoints object. *)
Definition instancesOfEndpoints (c : Controller) (svc : model.Service)
    (svcPorts : gmap string model.Port) (tagsList : model.TagsList)
    (ep : v1.Endpoints) : list model.ServiceInstance :=
  flat_map (fun ss =>
    flat_map (fun ea =>
      let tags := fst (tagsByIP (pods c) (v1.IP ea)) in
      if negb (model.HasSubsetOf tagsList tags) then []
      else
        let az := fst (getPodAZByIP c (v1.IP ea)) in
        instancesOfAddress svc svcPorts ss ea tags az)
      (v1.Addresses ss))
    (v1.Subsets ep).

(** The loop over the Endpoints mirror: it returns at the first object
    with the name and namespace of the service. *)
Fixpoint scanEndpoints (name namespace : string)
    (body : v1.Endpoints -> list model.ServiceInstance)
    (items : list v1.Endpoints) : list model.ServiceInstance :=
  match items with
  | [] => []
  | ep :: rest =>
      if decide (v1.Name (v1.Endpoints_ObjectMeta ep) = name
                 ∧ v1.Namespace (v1.Endpoints_ObjectMeta ep) = namespace)
      then body ep
      else scanEndpoints name namespace body rest
  end.

(** [Instances] implements a service catalog operation. *)
Definition Instances (c : Controller) (hostname : string)
    (ports : list string) (tagsList : model.TagsList)
  : list model.ServiceInstance :=
  match parseHostname hostname with
  | None => []
  | Some (name, namespace) =>
      match serviceByKey c name namespace with
      | None => []
      | Some item =>
          match convertService item (domainSuffix c) with
          | None => []
          | Some svc =>
              let svcPorts := locatePorts svc ports in
              scanEndpoints name namespace
                (instancesOfEndpoints c svc svcPorts tagsList)
                (cache.List (cache.GetStore (informer (endpoints c))))
          end
      end
  end.

(** [ep] is the entry of the Endpoints mirror for [name] and
    [namespace]; the mirror is keyed by namespace and name, so it lists no
    other object under them. *)
Definition endpointsEntry (c : Controller) (name namespace : string)
    (ep : v1.Endpoints) : Prop :=
  let items := cache.List (cache.GetStore (informer (endpoints c))) in
  In ep items
  ∧ v1.Name (v1.Endpoints_ObjectMeta ep) = name
  ∧ v1.Namespace (v1.Endpoints_ObjectMeta ep) = namespace
  ∧ ∀ ep', In ep' items →
           v1.Name (v1.Endpoints_ObjectMeta ep') = name →
           v1.Namespace (v1.Endpoints_ObjectMeta ep') = namespace →
           ep' = ep.

(** The instance that [Instances] builds for an address and a port. *)
Definition instanceOf (c : Controller) (svc : model.Service)
    (svcPort : model.Port) (ea : v1.EndpointAddress) (port : v1.EndpointPort)
  : model.ServiceInstance :=
  {| model.Endpoint :=
       {| model.Address := v1.IP ea;
          model.Endpoint_Port := v1.EndpointPort_Port port;
          model.ServicePort := Some svcPort |};
     model.Service_ := Some svc;
     model.Tags := fst (tagsByIP (pods c) (v1.IP ea));
     model.AvailabilityZone := fst (getPodAZByIP c (v1.IP ea)) |}.

(** An instance with its availability zone left out. *)
Definition forgetAZ (si : model.ServiceInstance) : model.ServiceInstance :=
  {| model.Endpoint := model.Endpoint si;
     model.Service_ := model.Service_ si;
     model.Tags := model.Tags si;
     model.AvailabilityZone := "" |}.

(** [HostInstances] implements a service catalog operation.  [addrs] is a
    Go [map[string]bool]: an address counts when it is mapped to true. *)
Definition HostInstances (c : Controller) (addrs : gmap string bool)
  : list model.ServiceInstance :=
  flat_map (fun ep =>
    flat_map (fun ss =>
      flat_map (fun ea =>
        match addrs !! v1.IP ea with
        | Some true =>
            match serviceByKey c (v1.Name (v1.Endpoints_ObjectMeta ep))
                               (v1.Namespace (v1.Endpoints_ObjectMeta ep)) with
            | None => []
            | Some item =>
                match convertService item (domainSuffix c) with
                | None => []
                | Some svc =>
                    flat_map (fun port =>
                      match model.PortList_Get (model.Ports svc)
                                               (v1.EndpointPort_Name port) with
                      | None => []
                      | Some svcPort =>
                          [ {| model.Endpoint :=
                                 {| model.Address := v1.IP ea;
                                    model.Endpoint_Port :=
                                      v1.EndpointPort_Port port;
                                    model.ServicePort := Some svcPort |};
                               model.Service_ := Some svc;
                               model.Tags :=
                                 fst (tagsByIP (pods c) (v1.IP ea));
                               model.AvailabilityZone :=
                                 fst (getPodAZByIP c (v1.IP ea)) |} ]
                      end)
                      (v1.Ports ss)
                end
            end
        | _ => []
        end)
        (v1.Addresses ss))
      (v1.Subsets ep))
    (cache.List (cache.GetStore (informer (endpoints c)))).

Definition generateServiceAccountID (sa ns domain : string) : string :=
  uriScheme +:+ "://" +:+ domain +:+ "/ns/" +:+ ns +:+ "/sa/" +:+ sa.

(** The set of accounts that [GetIstioServiceAccounts] collects. *)
Definition saSetOf (c : Controller) (sis : list model.ServiceInstance)
  : gset string :=
  foldl (fun saSet si =>
           match keys (pods c) !! model.Address (model.Endpoint si) with
           | None => saSet
           | Some key =>
               match cache.GetByKey
                       (cache.GetStore
                          (informer (PodCache_cacheHandler (pods c)))) key with
               | None => saSet
               | Some pod =>
                   {[ generateServiceAccountID
                        (v1.ServiceAccountName (v1.Spec pod))
                        (v1.Namespace (v1.Pod_ObjectMeta pod))
                        (domainSuffix c) ]} ∪ saSet
               end
           end)
        ∅ sis.

(** [GetIstioServiceAccounts] returns the Istio service accounts running a
    service hostname; the order of the result is that of a map iteration. *)
Definition GetIstioServiceAccounts (c : Controller) (hostname : string)
    (ports : list string) : list string :=
  elements (saSetOf c (Instances c hostname ports [])).

(** The closures of the handler chains, run on an object and an event. *)
Definition runHandler (c : Controller) (obj : Obj) (event : model.Event)
    (h : Handler) (trace : list Call) : list Call * Outcome :=
  match h with
  | Handler_notify => (trace, Return (notify c obj event))
  | Handler_service f =>
      match obj with
      | ObjService item =>
          match convertService item (domainSuffix c) with
          | Some svc => (trace ++ [ServiceCall f svc event], Return None)
          | None => (trace, Return None)
          end
      | _ => (trace, Panic)
      end
  | Handler_instance f =>
      match obj with
      | ObjEndpoints ep =>
          match serviceByKey c (v1.Name (v1.Endpoints_ObjectMeta ep))
                             (v1.Namespace (v1.Endpoints_ObjectMeta ep)) with
          | Some item =>
              match convertService item (domainSuffix c) with
              | Some svc =>
                  (trace ++ [InstanceCall f
                               {| model.Endpoint := model.NetworkEndpoint_zero;
                                  model.Service_ := Some svc;
                                  model.Tags := ∅;
                                  model.AvailabilityZone := "" |}
                               event],
                   Return None)
              | None => (trace, Return None)
              end
          | None => (trace, Return None)
          end
      | _ => (trace, Panic)
      end
  end.

(** [ChainHandler.Apply] on the chain of a mirror. *)
Definition Apply (c : Controller) (ch : ChainHandler) (obj : Obj)
    (event : model.Event) (trace : list Call) : list Call * Outcome :=
  Apply_funcs (runHandler c obj event) (funcs ch) trace.

(** [AppendServiceHandler] implements a service catalog operation; it
    returns the controller with the longer chain and a nil error. *)
Definition AppendServiceHandler (c : Controller) (f : Callback)
  : Controller * option string :=
  ({| domainSuffix := domainSuffix c;
      queue := queue c;
      services := {| informer := informer (services c);
                     handler := Append (handler (services c))
                                       (Handler_service f) |};
      endpoints := endpoints c;
      nodes := nodes c;
      pods := pods c |},
   None).

(** [AppendInstanceHandler] implements a service catalog operation. *)
Definition AppendInstanceHandler (c : Controller) (f : Callback)
  : Controller * option string :=
  ({| domainSuffix := domainSuffix c;
      queue := queue c;
      services := services c;
      endpoints := {| informer := informer (endpoints c);
                      handler := Append (handler (endpoints c))
                                        (Handler_instance f) |};
      nodes := nodes c;
      pods := pods c |},
   None).

(** [newPodCache] (pod.go) wraps the Pod informer into the Pod cache; it is
    not part of [controller.go]. *)
Variable newPodCache : cacheHandler v1.Pod -> PodCache.

(** [NewController] creates a new Kubernetes controller: an empty queue and
    one informer per mirror. *)
Definition NewController (options : ControllerOptions) : Controller :=
  {| domainSuffix := DomainSuffix options;
     queue := [];
     services := createInformer;
     endpoints := createInformer;
     nodes := createInformer;
     pods := newPodCache createInformer |}.

(** ** Synchronization gate *)

Lemma HasSynced_true_iff (c : Controller) :
  HasSynced c = true ↔
    cache.HasSynced (informer (services c)) = true
    ∧ cache.HasSynced (informer (endpoints c)) = true
    ∧ cache.HasSynced (informer (PodCache_cacheHandler (pods c))) = true.
Proof.
  unfold HasSynced.
  destruct (cache.HasSynced (informer (services c))),
           (cache.HasSynced (informer (endpoints c))),
           (cache.HasSynced (informer (PodCache_cacheHandler (pods c))));
    simpl; intuition congruence.
Qed.

(** The Node mirror has no say in [HasSynced]. *)
Lemma HasSynced_without_nodes (c c' : Controller) :
  services c = services c' → endpoints c = endpoints c' →
  pods c = pods c' → HasSynced c = HasSynced c'.
Proof. unfold HasSynced. intros -> -> ->. reflexivity. Qed.

(** C1, at its failing input: with the Service, Endpoints and Pod mirrors
    listed and the Node mirror not yet listed, [HasSynced] is already
    true, although [getPodAZByIP] depends on the Node mirror. *)
Theorem HasSynced_true_before_nodes_listed :
  cache.HasSynced (informer (nodes example.nodesNotListed)) = false
  ∧ HasSynced example.nodesNotListed = true.
Proof. split; reflexivity. Qed.

(** C2: [notify] returns an error exactly when [HasSynced] is false at the
    call, and nil exactly when it is true, whatever the key function
    answers for the object. *)
Theorem notify_fails_iff_not_synced
    (c : Controller) (obj : Obj) (event : model.Event) :
  (is_Some (notify c obj event) ↔ HasSynced c = false)
  ∧ (notify c obj event = None ↔ HasSynced c = true).
Proof.
  unfold notify.
  destruct (HasSynced c); simpl;
    destruct (DeletionHandlingMetaNamespaceKeyFunc obj);
    (split; split; intros H;
     try reflexivity; try discriminate;
     try (destruct H; discriminate); eauto).
Qed.

(** Every chain that [createInformer] builds starts with [notify], and
    appending keeps it first. *)
Lemma createInformer_first_stage (T : Type) :
  funcs (handler (@createInformer T)) = [Handler_notify].
Proof. reflexivity. Qed.

Lemma Append_keeps_head (ch : ChainHandler) (h first : Handler) :
  head (funcs ch) = Some first → head (funcs (Append ch h)) = Some first.
Proof.
  unfold Append; simpl. destruct (funcs ch); simpl; congruence.
Qed.

(** ** Event handlers of the informers *)

Lemma DeepEqual_true_iff (old cur : Obj) : DeepEqual old cur = true ↔ old = cur.
Proof. unfold DeepEqual. apply bool_decide_eq_true. Qed.

Lemma DeepEqual_false_iff (old cur : Obj) :
  DeepEqual old cur = false ↔ old ≠ cur.
Proof. unfold DeepEqual. apply bool_decide_eq_false. Qed.

Lemma UpdateFunc_changed (k : Kind) (old cur : Obj) (q : Queue) :
  DeepEqual old cur = false →
  UpdateFunc k old cur q =
    q ++ [ {| Task_handler := k; Task_obj := cur;
              Task_event := model.EventUpdate |} ].
Proof. unfold UpdateFunc, Push. intros ->. reflexivity. Qed.

Lemma UpdateFunc_unchanged (k : Kind) (old cur : Obj) (q : Queue) :
  DeepEqual old cur = true → UpdateFunc k old cur q = q.
Proof. unfold UpdateFunc. intros ->. reflexivity. Qed.

Lemma queue_grows (q : Queue) (t : Task) : q ++ [t] ≠ q.
Proof.
  intros H. apply (f_equal (@length Task)) in H.
  rewrite length_app in H. simpl in H. lia.
Qed.

(** The tasks that a run of notifications leaves on the queue, in order. *)
Lemma deliver_all (k : Kind) (ns : list Notification) (q : Queue) :
  foldl (deliver k) q ns =
    q ++ flat_map
           (fun n =>
              match n with
              | OnAdd obj =>
                  [ {| Task_handler := k; Task_obj := obj;
                       Task_event := model.EventAdd |} ]
              | OnUpdate old cur =>
                  if DeepEqual old cur then []
                  else [ {| Task_handler := k; Task_obj := cur;
                            Task_event := model.EventUpdate |} ]
              | OnDelete obj =>
                  [ {| Task_handler := k; Task_obj := obj;
                       Task_event := model.EventDelete |} ]
              end)
           ns.
Proof.
  revert q. induction ns as [|n ns IH]; intros q; simpl.
  - now rewrite app_nil_r.
  - rewrite IH. destruct n as [obj|old cur|obj]; simpl;
      unfold AddFunc, UpdateFunc, DeleteFunc, Push.
    + now rewrite <- app_assoc.
    + destruct (DeepEqual old cur); simpl; [reflexivity|].
      now rewrite <- app_assoc.
    + now rewrite <- app_assoc.
Qed.

(** C5: the update callback pushes a task exactly when the new value is
    not deeply equal to the old one, and then it pushes one task, for the
    new value; a no-op update leaves the queue as it is; every Add and
    every Delete pushes exactly one task; over a whole run of
    notifications the queue gains one task per Add, per Delete and per
    changed Update, and none per no-op Update. *)
Theorem update_pushes_iff_changed
    (k : Kind) (old cur obj : Obj) (q : Queue) (ns : list Notification) :
  (UpdateFunc k old cur q =
     q ++ [ {| Task_handler := k; Task_obj := cur;
               Task_event := model.EventUpdate |} ]
   ↔ DeepEqual old cur = false)
  ∧ (UpdateFunc k old cur q = q ↔ DeepEqual old cur = true)
  ∧ (DeepEqual old cur = true ↔ old = cur)
  ∧ AddFunc k obj q =
      q ++ [ {| Task_handler := k; Task_obj := obj;
                Task_event := model.EventAdd |} ]
  ∧ DeleteFunc k obj q =
      q ++ [ {| Task_handler := k; Task_obj := obj;
                Task_event := model.EventDelete |} ]
  ∧ length (foldl (deliver k) q ns) =
      length q
      + length (List.filter
                  (fun n =>
                     match n with
                     | OnUpdate old' cur' => negb (DeepEqual old' cur')
                     | _ => true
                     end) ns).
Proof.
  split; [|split; [|split; [|split; [|split]]]].
  - split.
    + intros H. destruct (DeepEqual old cur) eqn:E; [|reflexivity].
      rewrite (UpdateFunc_unchanged k old cur q E) in H.
      symmetry in H. now apply queue_grows in H.
    + apply UpdateFunc_changed.
  - split.
    + intros H. destruct (DeepEqual old cur) eqn:E; [reflexivity|].
      rewrite (UpdateFunc_changed k old cur q E) in H.
      now apply queue_grows in H.
    + apply UpdateFunc_unchanged.
  - apply DeepEqual_true_iff.
  - reflexivity.
  - reflexivity.
  - rewrite deliver_all, length_app. f_equal.
    induction ns as [|n ns IH]; [reflexivity|].
    simpl flat_map. rewrite length_app, IH.
    destruct n as [o|o1 o2|o]; simpl; try reflexivity.
    destruct (DeepEqual o1 o2); reflexivity.
Qed.

(** ** Identities *)

Lemma saSetOf_elem (c : Controller) (sis : list model.ServiceInstance)
    (sa : string) :
  sa ∈ saSetOf c sis ↔
    ∃ si key pod,
      In si sis
      ∧ keys (pods c) !! model.Address (model.Endpoint si) = Some key
      ∧ cache.GetByKey
          (cache.GetStore (informer (PodCache_cacheHandler (pods c)))) key
        = Some pod
      ∧ sa = generateServiceAccountID
               (v1.ServiceAccountName (v1.Spec pod))
               (v1.Namespace (v1.Pod_ObjectMeta pod)) (domainSuffix c).
Proof.
  unfold saSetOf.
  induction sis as [|si sis IH] using rev_ind.
  - simpl. split; [set_solver|]. intros (si & _ & _ & [] & _).
  - rewrite foldl_app. simpl.
    destruct (keys (pods c) !! model.Address (model.Endpoint si))
      as [key|] eqn:Ek.
    + destruct (cache.GetByKey _ key) as [pod|] eqn:Ep.
      * rewrite elem_of_union, elem_of_singleton, IH. split.
        -- intros [->|(si' & key' & pod' & Hin & H)].
           ++ exists si, key, pod. rewrite in_app_iff. simpl. auto.
           ++ exists si', key', pod'. rewrite in_app_iff. auto.
        -- intros (si' & key' & pod' & Hin & Hk & Hp & ->).
           apply in_app_iff in Hin as [Hin|[<-|[]]].
           ++ right. exists si', key', pod'. auto.
           ++ left. congruence.
      * rewrite IH. split.
        -- intros (si' & key' & pod' & Hin & H).
           exists si', key', pod'. rewrite in_app_iff. auto.
        -- intros (si' & key' & pod' & Hin & Hk & Hp & ->).
           apply in_app_iff in Hin as [Hin|[<-|[]]].
           ++ exists si', key', pod'. auto.
           ++ congruence.
    + rewrite IH. split.
      * intros (si' & key' & pod' & Hin & H).
        exists si', key', pod'. rewrite in_app_iff. auto.
      * intros (si' & key' & pod' & Hin & Hk & Hp & ->).
        apply in_app_iff in Hin as [Hin|[<-|[]]].
        -- exists si', key', pod'. auto.
        -- congruence.
Qed.

(** C7: the identity of an account is
    "spiffe://<domain>/ns/<namespace>/sa/<account>", account "bar" in
    namespace "foo" under "cluster.local" gives
    "spiffe://cluster.local/ns/foo/sa/bar", and the list that
    [GetIstioServiceAccounts] returns has no identity twice. *)
Theorem service_account_identities
    (c : Controller) (hostname sa ns domain : string) (ports : list string) :
  generateServiceAccountID sa ns domain
    = "spiffe://" +:+ domain +:+ "/ns/" +:+ ns +:+ "/sa/" +:+ sa
  ∧ generateServiceAccountID "bar" "foo" "cluster.local"
    = "spiffe://cluster.local/ns/foo/sa/bar"
  ∧ NoDup (GetIstioServiceAccounts c hostname ports).
Proof.
  split; [reflexivity|split; [reflexivity|]].
  unfold GetIstioServiceAccounts. apply NoDup_elements.
Qed.

(** ** The join of [Instances] *)

Lemma PortList_Get_Some (ports : model.PortList) (name : string)
    (port : model.Port) :
  model.PortList_Get ports name = Some port →
  model.Port_Name port = name ∧ In port ports.
Proof.
  induction ports as [|p ports IH]; simpl; [discriminate|].
  destruct (decide (model.Port_Name p = name)) as [E|E].
  - intros [= <-]. auto.
  - intros H. destruct (IH H). auto.
Qed.

Lemma locatePorts_lookup (svc : model.Service) (ports : list string)
    (name : string) (svcPort : model.Port) :
  locatePorts svc ports !! name = Some svcPort ↔
    In name ports ∧ model.PortList_Get (model.Ports svc) name = Some svcPort.
Proof.
  unfold locatePorts.
  induction ports as [|port ports IH] using rev_ind.
  - simpl. rewrite lookup_empty. split; [discriminate|intros [[] _]].
  - rewrite foldl_app. simpl. rewrite in_app_iff. simpl.
    destruct (model.PortList_Get (model.Ports svc) port) as [p|] eqn:E.
    + destruct (decide (port = name)) as [->|Hne].
      * rewrite lookup_insert_eq, E. intuition.
      * rewrite lookup_insert_ne by exact Hne. rewrite IH. intuition.
    + rewrite IH. split; [intuition|].
      intros [[Hin|[->|[]]] Hget]; [auto|congruence].
Qed.

Lemma In_instancesOfAddress (svc : model.Service)
    (svcPorts : gmap string model.Port) (ss : v1.EndpointSubset)
    (ea : v1.EndpointAddress) (tags : gmap string string) (az : string)
    (si : model.ServiceInstance) :
  In si (instancesOfAddress svc svcPorts ss ea tags az) ↔
    ∃ port svcPort,
      In port (v1.Ports ss)
      ∧ svcPorts !! v1.EndpointPort_Name port = Some svcPort
      ∧ si = {| model.Endpoint :=
                  {| model.Address := v1.IP ea;
                     model.Endpoint_Port := v1.EndpointPort_Port port;
                     model.ServicePort := Some svcPort |};
                model.Service_ := Some svc;
                model.Tags := tags;
                model.AvailabilityZone := az |}.
Proof.
  unfold instancesOfAddress. rewrite in_flat_map. split.
  - intros (port & Hin & Hsi).
    destruct (svcPorts !! v1.EndpointPort_Name port) as [svcPort|] eqn:E;
      [|destruct Hsi].
    destruct Hsi as [<-|[]]. eauto.
  - intros (port & svcPort & Hin & E & ->).
    exists port. split; [exact Hin|]. rewrite E. now left.
Qed.

Lemma In_instancesOfEndpoints (c : Controller) (svc : model.Service)
    (svcPorts : gmap string model.Port) (tagsList : model.TagsList)
    (ep : v1.Endpoints) (si : model.ServiceInstance) :
  In si (instancesOfEndpoints c svc svcPorts tagsList ep) ↔
    ∃ ss ea port svcPort,
      In ss (v1.Subsets ep) ∧ In ea (v1.Addresses ss)
      ∧ In port (v1.Ports ss)
      ∧ model.HasSubsetOf tagsList (fst (tagsByIP (pods c) (v1.IP ea))) = true
      ∧ svcPorts !! v1.EndpointPort_Name port = Some svcPort
      ∧ si = instanceOf c svc svcPort ea port.
Proof.
  unfold instancesOfEndpoints. rewrite in_flat_map. split.
  - intros (ss & Hss & H). apply in_flat_map in H as (ea & Hea & H).
    destruct (model.HasSubsetOf tagsList (fst (tagsByIP (pods c) (v1.IP ea))))
      eqn:Ht; simpl in H; [|destruct H].
    apply In_instancesOfAddress in H as (port & svcPort & Hp & E & ->).
    exists ss, ea, port, svcPort. auto 10.
  - intros (ss & ea & port & svcPort & Hss & Hea & Hp & Ht & E & ->).
    exists ss. split; [exact Hss|]. apply in_flat_map.
    exists ea. split; [exact Hea|]. rewrite Ht. simpl.
    apply In_instancesOfAddress. exists port, svcPort. auto.
Qed.

Lemma scanEndpoints_cases (name namespace : string)
    (body : v1.Endpoints → list model.ServiceInstance)
    (items : list v1.Endpoints) :
  scanEndpoints name namespace body items = []
  ∨ ∃ ep, In ep items
          ∧ v1.Name (v1.Endpoints_ObjectMeta ep) = name
          ∧ v1.Namespace (v1.Endpoints_ObjectMeta ep) = namespace
          ∧ scanEndpoints name namespace body items = body ep.
Proof.
  induction items as [|ep items IH]; simpl; [now left|].
  destruct (decide _) as [[Hn Hs]|_].
  - right. exists ep. auto.
  - destruct IH as [IH|(ep' & Hin & Hn & Hs & IH)]; [now left|].
    right. exists ep'. auto.
Qed.

Lemma scanEndpoints_entry (name namespace : string)
    (body : v1.Endpoints → list model.ServiceInstance)
    (items : list v1.Endpoints) (ep : v1.Endpoints) :
  In ep items →
  v1.Name (v1.Endpoints_ObjectMeta ep) = name →
  v1.Namespace (v1.Endpoints_ObjectMeta ep) = namespace →
  (∀ ep', In ep' items →
          v1.Name (v1.Endpoints_ObjectMeta ep') = name →
          v1.Namespace (v1.Endpoints_ObjectMeta ep') = namespace →
          ep' = ep) →
  scanEndpoints name namespace body items = body ep.
Proof.
  induction items as [|e items IH]; intros Hin Hn Hs Huniq;
    [destruct Hin|].
  simpl. destruct (decide _) as [[Hn' Hs']|Hno].
  - now rewrite (Huniq e (or_introl eq_refl) Hn' Hs').
  - destruct Hin as [->|Hin]; [now destruct Hno|].
    apply IH; auto. intros ep' Hin'. apply Huniq. now right.
Qed.

Section Join.

(** The joins that a query goes through before it reaches the
    addresses: the hostname parses, the Service mirror has the service,
    the service converts, and the Endpoints mirror has its entry. *)
Variables (c : Controller) (hostname name namespace : string).
Variables (item : v1.Service) (svc : model.Service) (ep : v1.Endpoints).
Hypothesis Hparse : parseHostname hostname = Some (name, namespace).
Hypothesis Hitem : serviceByKey c name namespace = Some item.
Hypothesis Hsvc : convertService item (domainSuffix c) = Some svc.
Hypothesis Hep : endpointsEntry c name namespace ep.

Lemma Instances_joined (ports : list string) (tagsList : model.TagsList) :
  Instances c hostname ports tagsList =
    instancesOfEndpoints c svc (locatePorts svc ports) tagsList ep.
Proof.
  unfold Instances. rewrite Hparse, Hitem, Hsvc.
  destruct Hep as (Hin & Hn & Hs & Huniq).
  now apply scanEndpoints_entry.
Qed.

Lemma In_Instances_joined (ports : list string)
    (tagsList : model.TagsList) (si : model.ServiceInstance) :
  In si (Instances c hostname ports tagsList) ↔
    ∃ ss ea port svcPort,
      In ss (v1.Subsets ep) ∧ In ea (v1.Addresses ss)
      ∧ In port (v1.Ports ss)
      ∧ model.HasSubsetOf tagsList (fst (tagsByIP (pods c) (v1.IP ea)))
        = true
      ∧ In (v1.EndpointPort_Name port) ports
      ∧ model.PortList_Get (model.Ports svc) (v1.EndpointPort_Name port)
        = Some svcPort
      ∧ si = instanceOf c svc svcPort ea port.
Proof.
  rewrite Instances_joined, In_instancesOfEndpoints.
  split.
  - intros (ss & ea & port & svcPort & Hss & Hea & Hp & Ht & H & ->).
    exists ss, ea, port, svcPort.
    apply locatePorts_lookup in H as [H1 H2]. auto 10.
  - intros (ss & ea & port & svcPort & Hss & Hea & Hp & Ht & H1 & H2 & ->).
    exists ss, ea, port, svcPort.
    assert (locatePorts svc ports !! v1.EndpointPort_Name port
            = Some svcPort) by (apply locatePorts_lookup; auto).
    auto 10.
Qed.

End Join.

(** Whatever [Instances] returns went through the joins. *)
Lemma In_Instances (c : Controller) (hostname : string)
    (ports : list string) (tagsList : model.TagsList)
    (si : model.ServiceInstance) :
  In si (Instances c hostname ports tagsList) →
  ∃ name namespace item svc ep ss ea port svcPort,
    parseHostname hostname = Some (name, namespace)
    ∧ serviceByKey c name namespace = Some item
    ∧ convertService item (domainSuffix c) = Some svc
    ∧ In ep (cache.List (cache.GetStore (informer (endpoints c))))
    ∧ v1.Name (v1.Endpoints_ObjectMeta ep) = name
    ∧ v1.Namespace (v1.Endpoints_ObjectMeta ep) = namespace
    ∧ In ss (v1.Subsets ep) ∧ In ea (v1.Addresses ss)
    ∧ In port (v1.Ports ss)
    ∧ model.HasSubsetOf tagsList (fst (tagsByIP (pods c) (v1.IP ea))) = true
    ∧ In (v1.EndpointPort_Name port) ports
    ∧ model.PortList_Get (model.Ports svc) (v1.EndpointPort_Name port)
      = Some svcPort
    ∧ si = instanceOf c svc svcPort ea port.
Proof.
  unfold Instances.
  destruct (parseHostname hostname) as [[name namespace]|] eqn:Hparse;
    [|intros []].
  destruct (serviceByKey c name namespace) as [item|] eqn:Hitem; [|intros []].
  destruct (convertService item (domainSuffix c)) as [svc|] eqn:Hsvc;
    [|intros []].
  destruct (scanEndpoints_cases name namespace
              (instancesOfEndpoints c svc (locatePorts svc ports) tagsList)
              (cache.List (cache.GetStore (informer (endpoints c)))))
    as [->|(ep & Hin & Hn & Hs & ->)]; [intros []|].
  intros H.
  apply In_instancesOfEndpoints
    in H as (ss & ea & port & svcPort & Hss & Hea & Hp & Ht & H & ->).
  apply locatePorts_lookup in H as [H1 H2].
  exists name, namespace, item, svc, ep, ss, ea, port, svcPort. auto 20.
Qed.

(** C3: with a service that converts to the named ports http:80 and
    grpc:90, and its Endpoints entry with one address exposing both named
    ports, a query for the port "http" with an empty filter returns exactly
    one instance, matched to the service port http:80; and in general every
    instance returned is built from a requested named port of the resolved
    service and from an Endpoints object with the parsed name and
    namespace. *)
Theorem Instances_requested_ports_only :
  (∀ c hostname name namespace item svc ep ea proto1 proto2 n1 n2,
     parseHostname hostname = Some (name, namespace) →
     serviceByKey c name namespace = Some item →
     convertService item (domainSuffix c) = Some svc →
     endpointsEntry c name namespace ep →
     model.Ports svc =
       [ {| model.Port_Name := "http"; model.Port_Port := 80;
            model.Port_Protocol := proto1 |};
         {| model.Port_Name := "grpc"; model.Port_Port := 90;
            model.Port_Protocol := proto2 |} ] →
     v1.Subsets ep =
       [ {| v1.Addresses := [ea];
            v1.Ports :=
              [ {| v1.EndpointPort_Name := "http";
                   v1.EndpointPort_Port := n1 |};
                {| v1.EndpointPort_Name := "grpc";
                   v1.EndpointPort_Port := n2 |} ] |} ] →
     Instances c hostname ["http"] [] =
       [ {| model.Endpoint :=
              {| model.Address := v1.IP ea;
                 model.Endpoint_Port := n1;
                 model.ServicePort :=
                   Some {| model.Port_Name := "http"; model.Port_Port := 80;
                           model.Port_Protocol := proto1 |} |};
            model.Service_ := Some svc;
            model.Tags := fst (tagsByIP (pods c) (v1.IP ea));
            model.AvailabilityZone := fst (getPodAZByIP c (v1.IP ea)) |} ])
  ∧ (∀ c hostname ports tagsList si,
       In si (Instances c hostname ports tagsList) →
       ∃ name namespace item svc ep ss ea port svcPort,
         parseHostname hostname = Some (name, namespace)
         ∧ serviceByKey c name namespace = Some item
         ∧ convertService item (domainSuffix c) = Some svc
         ∧ In ep (cache.List (cache.GetStore (informer (endpoints c))))
         ∧ v1.Name (v1.Endpoints_ObjectMeta ep) = name
         ∧ v1.Namespace (v1.Endpoints_ObjectMeta ep) = namespace
         ∧ In ss (v1.Subsets ep) ∧ In ea (v1.Addresses ss)
         ∧ In port (v1.Ports ss)
         ∧ In (model.Port_Name svcPort) ports
         ∧ model.PortList_Get (model.Ports svc) (model.Port_Name svcPort)
           = Some svcPort
         ∧ v1.EndpointPort_Name port = model.Port_Name svcPort
         ∧ model.Service_ si = Some svc
         ∧ model.Endpoint si =
             {| model.Address := v1.IP ea;
                model.Endpoint_Port := v1.EndpointPort_Port port;
                model.ServicePort := Some svcPort |}).
Proof.
  split.
  - intros c hostname name namespace item svc ep ea proto1 proto2 n1 n2
      Hparse Hitem Hsvc Hep Hports Hsubsets.
    rewrite (Instances_joined c hostname name namespace item svc ep
               Hparse Hitem Hsvc Hep).
    unfold instancesOfEndpoints, instancesOfAddress, locatePorts.
    rewrite Hsubsets, Hports. simpl.
    rewrite lookup_insert_eq.
    rewrite lookup_insert_ne by discriminate.
    rewrite lookup_empty. reflexivity.
  - intros c hostname ports tagsList si Hin.
    apply In_Instances in Hin
      as (name & namespace & item & svc & ep & ss & ea & port & svcPort
          & H1 & H2 & H3 & H4 & H5 & H6 & H7 & H8 & H9 & H10 & H11 & H12
          & ->).
    destruct (PortList_Get_Some _ _ _ H12) as [Hname _].
    exists name, namespace, item, svc, ep, ss, ea, port, svcPort.
    rewrite Hname. auto 20.
Qed.

(** ** The tag filter *)

Lemma HasSubsetOf_true_iff (tagsList : model.TagsList)
    (that : gmap string string) :
  model.HasSubsetOf tagsList that = true ↔
    tagsList = []
    ∨ ∃ t, In t tagsList ∧ ∀ k v, t !! k = Some v → that !! k = Some v.
Proof.
  assert (Hsub : ∀ t : gmap string string,
             model.Tags_SubsetOf t that = true
             ↔ ∀ k v, t !! k = Some v → that !! k = Some v).
  { intros t. unfold model.Tags_SubsetOf.
    rewrite bool_decide_eq_true, map_subseteq_spec. reflexivity. }
  destruct tagsList as [|t0 rest].
  - simpl. split; auto.
  - unfold model.HasSubsetOf. rewrite existsb_exists. split.
    + intros (t & Hin & Ht). right. exists t. split; [exact Hin|].
      now apply Hsub.
    + intros [?|(t & Hin & Ht)]; [discriminate|].
      exists t. split; [exact Hin|]. now apply Hsub.
Qed.

Lemma tagsByIP_not_indexed (pc : PodCache) (addr : string) :
  keys pc !! addr = None → tagsByIP pc addr = (∅, false).
Proof. unfold tagsByIP, getPodByIP. intros ->. reflexivity. Qed.

(** C4: an address of the joined Endpoints entry contributes instances to
    a query exactly when the filter has a subset of the address's tags:
    every instance returned carries the tags of its address and they pass
    the filter, and an address with a requested, resolving port has an
    instance in the result iff its tags pass.  The filter passes when it is
    empty or one of its tag sets is included in the tags: {version: v1}
    passes on {version: v1, env: prod}, {version: v2} does not, and the
    empty filter passes on everything, also on the empty tags of an
    address that the Pod index does not know. *)
Theorem Instances_tag_filter :
  (∀ c hostname ports tagsList si,
     In si (Instances c hostname ports tagsList) →
     model.Tags si
       = fst (tagsByIP (pods c) (model.Address (model.Endpoint si)))
     ∧ model.HasSubsetOf tagsList (model.Tags si) = true)
  ∧ (∀ c hostname name namespace item svc ep ports tagsList ss ea port
       svcPort,
       parseHostname hostname = Some (name, namespace) →
       serviceByKey c name namespace = Some item →
       convertService item (domainSuffix c) = Some svc →
       endpointsEntry c name namespace ep →
       In ss (v1.Subsets ep) → In ea (v1.Addresses ss) →
       In port (v1.Ports ss) →
       In (v1.EndpointPort_Name port) ports →
       model.PortList_Get (model.Ports svc) (v1.EndpointPort_Name port)
         = Some svcPort →
       ((∃ si, In si (Instances c hostname ports tagsList)
               ∧ model.Address (model.Endpoint si) = v1.IP ea)
        ↔ model.HasSubsetOf tagsList (fst (tagsByIP (pods c) (v1.IP ea)))
          = true))
  ∧ (∀ tagsList that,
       model.HasSubsetOf tagsList that = true ↔
         tagsList = []
         ∨ ∃ t, In t tagsList ∧ ∀ k v, t !! k = Some v → that !! k = Some v)
  ∧ model.HasSubsetOf [ {[ "version" := "v1" ]} ]
      (<["version" := "v1"]> (<["env" := "prod"]> ∅)) = true
  ∧ model.HasSubsetOf [ {[ "version" := "v2" ]} ]
      (<["version" := "v1"]> (<["env" := "prod"]> ∅)) = false
  ∧ (∀ that, model.HasSubsetOf [] that = true)
  ∧ (∀ c addr,
       keys (pods c) !! addr = None →
       tagsByIP (pods c) addr = (∅, false)
       ∧ model.HasSubsetOf [] (fst (tagsByIP (pods c) addr)) = true).
Proof.
  split; [|split; [|split; [|split; [|split; [|split]]]]].
  - intros c hostname ports tagsList si Hin.
    apply In_Instances in Hin
      as (name & namespace & item & svc & ep & ss & ea & port & svcPort
          & _ & _ & _ & _ & _ & _ & _ & _ & _ & Ht & _ & _ & ->).
    simpl. auto.
  - intros c hostname name namespace item svc ep ports tagsList ss ea port
      svcPort Hparse Hitem Hsvc Hep Hss Hea Hport Hreq Hget.
    split.
    + intros (si & Hin & Haddr).
      apply (In_Instances_joined c hostname name namespace item svc ep
               Hparse Hitem Hsvc Hep) in Hin
        as (ss' & ea' & port' & svcPort' & _ & _ & _ & Ht & _ & _ & ->).
      simpl in Haddr. now rewrite <- Haddr.
    + intros Ht. exists (instanceOf c svc svcPort ea port).
      split; [|reflexivity].
      apply (In_Instances_joined c hostname name namespace item svc ep
               Hparse Hitem Hsvc Hep).
      exists ss, ea, port, svcPort. auto 10.
  - apply HasSubsetOf_true_iff.
  - vm_compute. reflexivity.
  - vm_compute. reflexivity.
  - reflexivity.
  - intros c addr Hk. rewrite (tagsByIP_not_indexed _ _ Hk). auto.
Qed.

(** ** Locality *)

Lemma getPodAZByIP_cases (c : Controller) (addr : string) :
  (∃ pod node region zone,
     getPodByIP (pods c) addr = Some pod
     ∧ cache.GetByKey (cache.GetStore (informer (nodes c)))
         (v1.NodeName (v1.Spec pod)) = Some node
     ∧ v1.Labels (v1.Node_ObjectMeta node) !! NodeRegionLabel = Some region
     ∧ v1.Labels (v1.Node_ObjectMeta node) !! NodeZoneLabel = Some zone
     ∧ getPodAZByIP c addr = (region +:+ "/" +:+ zone, true))
  ∨ (getPodAZByIP c addr = ("", false)
     ∧ (getPodByIP (pods c) addr = None
        ∨ ∃ pod,
            getPodByIP (pods c) addr = Some pod
            ∧ (cache.GetByKey (cache.GetStore (informer (nodes c)))
                 (v1.NodeName (v1.Spec pod)) = None
               ∨ ∃ node,
                   cache.GetByKey (cache.GetStore (informer (nodes c)))
                     (v1.NodeName (v1.Spec pod)) = Some node
                   ∧ (v1.Labels (v1.Node_ObjectMeta node) !! NodeRegionLabel
                      = None
                      ∨ v1.Labels (v1.Node_ObjectMeta node) !! NodeZoneLabel
                        = None)))).
Proof.
  unfold getPodAZByIP.
  destruct (getPodByIP (pods c) addr) as [pod|]; [|right; auto].
  destruct (cache.GetByKey _ (v1.NodeName (v1.Spec pod))) as [node|] eqn:En;
    [|right; split; [reflexivity|right; exists pod; auto]].
  destruct (v1.Labels (v1.Node_ObjectMeta node) !! NodeRegionLabel)
    as [region|] eqn:Er;
    [|right; split; [reflexivity|right; exists pod; split; [reflexivity|];
                     right; exists node; auto]].
  destruct (v1.Labels (v1.Node_ObjectMeta node) !! NodeZoneLabel)
    as [zone|] eqn:Ez;
    [|right; split; [reflexivity|right; exists pod; split; [reflexivity|];
                     right; exists node; auto]].
  left. exists pod, node, region, zone. auto.
Qed.

Lemma map_flat_map_ext {A B C : Type} (f : B → C) (g g' : A → list B)
    (l : list A) :
  (∀ x, map f (g x) = map f (g' x)) →
  map f (flat_map g l) = map f (flat_map g' l).
Proof.
  intros H. induction l as [|x l IH]; simpl; [reflexivity|].
  rewrite !map_app. congruence.
Qed.

Lemma scanEndpoints_map_ext {C : Type} (f : model.ServiceInstance → C)
    (name namespace : string)
    (body body' : v1.Endpoints → list model.ServiceInstance)
    (items : list v1.Endpoints) :
  (∀ ep, map f (body ep) = map f (body' ep)) →
  map f (scanEndpoints name namespace body items)
  = map f (scanEndpoints name namespace body' items).
Proof.
  intros H. induction items as [|ep items IH]; simpl; [reflexivity|].
  destruct (decide _); auto.
Qed.

(** Whatever the Node mirror holds, [Instances] returns the same
    instances but for their availability zones. *)
Lemma Instances_without_nodes (c c' : Controller) (hostname : string)
    (ports : list string) (tagsList : model.TagsList) :
  domainSuffix c = domainSuffix c' → services c = services c' →
  endpoints c = endpoints c' → pods c = pods c' →
  map forgetAZ (Instances c hostname ports tagsList)
  = map forgetAZ (Instances c' hostname ports tagsList).
Proof.
  intros Hd Hs He Hp. unfold Instances, serviceByKey.
  rewrite Hd, Hs, He.
  destruct (parseHostname hostname) as [[name namespace]|]; [|reflexivity].
  destruct (cache.GetByKey _ _) as [item|]; [|reflexivity].
  destruct (convertService item (domainSuffix c')) as [svc|]; [|reflexivity].
  apply scanEndpoints_map_ext. intros ep.
  unfold instancesOfEndpoints. rewrite Hp.
  apply map_flat_map_ext. intros ss.
  apply map_flat_map_ext. intros ea.
  destruct (negb _); [reflexivity|].
  unfold instancesOfAddress.
  apply map_flat_map_ext. intros port.
  destruct (_ !! _); reflexivity.
Qed.

(** C6: the locality lookup either finds the pod, its node and both
    labels and answers "region/zone", or it answers the empty zone; an
    address that passes the service, port and tag joins has its instance in
    the result with whatever zone the lookup answered, so a failed lookup
    (no Pod index entry among them) leaves the instance in with an empty
    zone; and the Node mirror bears on nothing but the zones of the
    result. *)
Theorem locality_lookup_never_drops :
  (∀ c addr,
     (∃ pod node region zone,
        getPodByIP (pods c) addr = Some pod
        ∧ cache.GetByKey (cache.GetStore (informer (nodes c)))
            (v1.NodeName (v1.Spec pod)) = Some node
        ∧ v1.Labels (v1.Node_ObjectMeta node) !! NodeRegionLabel
          = Some region
        ∧ v1.Labels (v1.Node_ObjectMeta node) !! NodeZoneLabel = Some zone
        ∧ getPodAZByIP c addr = (region +:+ "/" +:+ zone, true))
     ∨ (getPodAZByIP c addr = ("", false)
        ∧ (getPodByIP (pods c) addr = None
           ∨ ∃ pod,
               getPodByIP (pods c) addr = Some pod
               ∧ (cache.GetByKey (cache.GetStore (informer (nodes c)))
                    (v1.NodeName (v1.Spec pod)) = None
                  ∨ ∃ node,
                      cache.GetByKey (cache.GetStore (informer (nodes c)))
                        (v1.NodeName (v1.Spec pod)) = Some node
                      ∧ (v1.Labels (v1.Node_ObjectMeta node)
                           !! NodeRegionLabel = None
                         ∨ v1.Labels (v1.Node_ObjectMeta node)
                             !! NodeZoneLabel = None)))))
  ∧ (∀ c addr,
       keys (pods c) !! addr = None → getPodAZByIP c addr = ("", false))
  ∧ (∀ c hostname name namespace item svc ep ports tagsList ss ea port
       svcPort,
       parseHostname hostname = Some (name, namespace) →
       serviceByKey c name namespace = Some item →
       convertService item (domainSuffix c) = Some svc →
       endpointsEntry c name namespace ep →
       In ss (v1.Subsets ep) → In ea (v1.Addresses ss) →
       In port (v1.Ports ss) →
       In (v1.EndpointPort_Name port) ports →
       model.PortList_Get (model.Ports svc) (v1.EndpointPort_Name port)
         = Some svcPort →
       model.HasSubsetOf tagsList (fst (tagsByIP (pods c) (v1.IP ea)))
         = true →
       In {| model.Endpoint :=
               {| model.Address := v1.IP ea;
                  model.Endpoint_Port := v1.EndpointPort_Port port;
                  model.ServicePort := Some svcPort |};
             model.Service_ := Some svc;
             model.Tags := fst (tagsByIP (pods c) (v1.IP ea));
             model.AvailabilityZone := fst (getPodAZByIP c (v1.IP ea)) |}
          (Instances c hostname ports tagsList))
  ∧ (∀ c c' hostname ports tagsList,
       domainSuffix c = domainSuffix c' → services c = services c' →
       endpoints c = endpoints c' → pods c = pods c' →
       map forgetAZ (Instances c hostname ports tagsList)
       = map forgetAZ (Instances c' hostname ports tagsList)).
Proof.
  split; [|split; [|split]].
  - apply getPodAZByIP_cases.
  - intros c addr Hk. unfold getPodAZByIP, getPodByIP. now rewrite Hk.
  - intros c hostname name namespace item svc ep ports tagsList ss ea port
      svcPort Hparse Hitem Hsvc Hep Hss Hea Hport Hreq Hget Ht.
    apply (In_Instances_joined c hostname name namespace item svc ep
             Hparse Hitem Hsvc Hep).
    exists ss, ea, port, svcPort. auto 10.
  - apply Instances_without_nodes.
Qed.

(** ** Handlers of the consumers *)

Lemma runHandler_call (c : Controller) (obj : Obj) (event : model.Event)
    (h : Handler) (trace : list Call) (call : Call) :
  In call (fst (runHandler c obj event h trace)) →
  In call trace
  ∨ (∃ f item svc,
       h = Handler_service f ∧ obj = ObjService item
       ∧ convertService item (domainSuffix c) = Some svc
       ∧ call = ServiceCall f svc event)
  ∨ (∃ f ep item svc,
       h = Handler_instance f ∧ obj = ObjEndpoints ep
       ∧ serviceByKey c (v1.Name (v1.Endpoints_ObjectMeta ep))
           (v1.Namespace (v1.Endpoints_ObjectMeta ep)) = Some item
       ∧ convertService item (domainSuffix c) = Some svc
       ∧ call = InstanceCall f
                  {| model.Endpoint := model.NetworkEndpoint_zero;
                     model.Service_ := Some svc;
                     model.Tags := ∅;
                     model.AvailabilityZone := "" |}
                  event).
Proof.
  destruct h as [|f|f]; simpl; [now left| |].
  - destruct obj as [item| | | |]; simpl; try (now left).
    destruct (convertService item (domainSuffix c)) as [svc|] eqn:E;
      simpl; [|now left].
    rewrite in_app_iff. simpl. intros [H|[<-|[]]]; [now left|].
    right. left. exists f, item, svc. auto.
  - destruct obj as [|ep| | |]; simpl; try (now left).
    destruct (serviceByKey c _ _) as [item|] eqn:Ei; simpl; [|now left].
    destruct (convertService item (domainSuffix c)) as [svc|] eqn:E;
      simpl; [|now left].
    rewrite in_app_iff. simpl. intros [H|[<-|[]]]; [now left|].
    right. right. exists f, ep, item, svc. auto.
Qed.

Lemma Apply_funcs_call (c : Controller) (obj : Obj) (event : model.Event)
    (hs : list Handler) (trace : list Call) (call : Call) :
  In call (fst (Apply_funcs (runHandler c obj event) hs trace)) →
  In call trace
  ∨ ∃ h, In h hs ∧ ∃ before, In call (fst (runHandler c obj event h before))
                             ∧ ¬ In call before.
Proof.
  revert trace. induction hs as [|h hs IH]; intros trace; simpl; [now left|].
  destruct (runHandler c obj event h trace) as [trace' out] eqn:E.
  assert (Hstep : In call trace' →
                  In call trace
                  ∨ ∃ h0, (h = h0 ∨ In h0 hs)
                       ∧ ∃ before,
                           In call (fst (runHandler c obj event h0 before))
                           ∧ ¬ In call before).
  { intros Hin. destruct (in_dec Call_eq_dec call trace) as [Ht|Hnt];
      [now left|].
    right. exists h. split; [now left|]. exists trace.
    rewrite E. auto. }
  destruct out as [[err|]|]; simpl; auto.
  intros Hin. destruct (IH trace' Hin) as [Ht|(h0 & Hh0 & Hc)]; [auto|].
  right. exists h0. auto.
Qed.

Lemma Apply_call (c : Controller) (ch : ChainHandler) (obj : Obj)
    (event : model.Event) (trace : list Call) (call : Call) :
  In call (fst (Apply c ch obj event trace)) →
  In call trace
  ∨ (∃ f item svc,
       In (Handler_service f) (funcs ch) ∧ obj = ObjService item
       ∧ convertService item (domainSuffix c) = Some svc
       ∧ call = ServiceCall f svc event)
  ∨ (∃ f ep item svc,
       In (Handler_instance f) (funcs ch) ∧ obj = ObjEndpoints ep
       ∧ serviceByKey c (v1.Name (v1.Endpoints_ObjectMeta ep))
           (v1.Namespace (v1.Endpoints_ObjectMeta ep)) = Some item
       ∧ convertService item (domainSuffix c) = Some svc
       ∧ call = InstanceCall f
                  {| model.Endpoint := model.NetworkEndpoint_zero;
                     model.Service_ := Some svc;
                     model.Tags := ∅;
                     model.AvailabilityZone := "" |}
                  event).
Proof.
  unfold Apply. intros H.
  apply Apply_funcs_call in H as [H|(h & Hh & before & Hc & Hnb)];
    [now left|].
  apply runHandler_call in Hc
    as [Hc|[(f & item & svc & -> & Ho & Hs & ->)
           |(f & ep & item & svc & -> & Ho & Hi & Hs & ->)]].
  - contradiction.
  - right. left. exists f, item, svc. auto.
  - right. right. exists f, ep, item, svc. auto.
Qed.

Lemma service_handlers_return_nil (c : Controller) (fs : list Callback)
    (item : v1.Service) (event : model.Event) (trace : list Call) :
  snd (Apply_funcs (runHandler c (ObjService item) event)
         (map Handler_service fs) trace) = Return None.
Proof.
  revert trace. induction fs as [|f fs IH]; intros trace; simpl;
    [reflexivity|].
  destruct (convertService item (domainSuffix c)); apply IH.
Qed.

Lemma instance_handlers_return_nil (c : Controller) (fs : list Callback)
    (ep : v1.Endpoints) (event : model.Event) (trace : list Call) :
  snd (Apply_funcs (runHandler c (ObjEndpoints ep) event)
         (map Handler_instance fs) trace) = Return None.
Proof.
  revert trace. induction fs as [|f fs IH]; intros trace; simpl;
    [reflexivity|].
  destruct (serviceByKey c _ _) as [item|]; [|apply IH].
  destruct (convertService item (domainSuffix c)); apply IH.
Qed.

(** C9: the handler that [AppendInstanceHandler] appends to the chain of
    the Endpoints mirror calls the callback once, with an instance that has
    the converted service and nothing else, when the Service mirror has
    the service of the Endpoints object's name and namespace and it
    converts; otherwise it calls nothing; either way it returns nil.  So
    every call of an instance callback that a run of a chain adds to the
    trace carries such an instance. *)
Theorem instance_handler_passes_service_only :
  (∀ c f ep event trace item svc,
     serviceByKey c (v1.Name (v1.Endpoints_ObjectMeta ep))
       (v1.Namespace (v1.Endpoints_ObjectMeta ep)) = Some item →
     convertService item (domainSuffix c) = Some svc →
     runHandler c (ObjEndpoints ep) event (Handler_instance f) trace =
       (trace ++ [InstanceCall f
                    {| model.Endpoint := model.NetworkEndpoint_zero;
                       model.Service_ := Some svc;
                       model.Tags := ∅;
                       model.AvailabilityZone := "" |}
                    event],
        Return None))
  ∧ (∀ c f ep event trace,
       (serviceByKey c (v1.Name (v1.Endpoints_ObjectMeta ep))
          (v1.Namespace (v1.Endpoints_ObjectMeta ep)) = None
        ∨ ∃ item,
            serviceByKey c (v1.Name (v1.Endpoints_ObjectMeta ep))
              (v1.Namespace (v1.Endpoints_ObjectMeta ep)) = Some item
            ∧ convertService item (domainSuffix c) = None) →
       runHandler c (ObjEndpoints ep) event (Handler_instance f) trace =
         (trace, Return None))
  ∧ (∀ c ch obj event trace f si ev,
       In (InstanceCall f si ev) (fst (Apply c ch obj event trace)) →
       In (InstanceCall f si ev) trace
       ∨ (In (Handler_instance f) (funcs ch)
          ∧ ev = event
          ∧ model.Endpoint si = model.NetworkEndpoint_zero
          ∧ model.Tags si = ∅
          ∧ model.AvailabilityZone si = ""
          ∧ ∃ ep item svc,
              obj = ObjEndpoints ep
              ∧ serviceByKey c (v1.Name (v1.Endpoints_ObjectMeta ep))
                  (v1.Namespace (v1.Endpoints_ObjectMeta ep)) = Some item
              ∧ convertService item (domainSuffix c) = Some svc
              ∧ model.Service_ si = Some svc))
  ∧ (∀ c f,
       funcs (handler (endpoints (fst (AppendInstanceHandler c f))))
       = funcs (handler (endpoints c)) ++ [Handler_instance f]).
Proof.
  split; [|split; [|split]].
  - intros c f ep event trace item svc Hi Hs. simpl.
    now rewrite Hi, Hs.
  - intros c f ep event trace [Hi|(item & Hi & Hs)]; simpl.
    + now rewrite Hi.
    + now rewrite Hi, Hs.
  - intros c ch obj event trace f si ev H.
    apply Apply_call in H
      as [H|[(f' & item & svc & _ & _ & _ & H)
            |(f' & ep & item & svc & Hf & Ho & Hi & Hs & H)]].
    + now left.
    + discriminate.
    + injection H as -> -> ->. right. simpl.
      repeat (split; [auto; fail|]). exists ep, item, svc. auto.
  - reflexivity.
Qed.

(** On a Service object, respectively an Endpoints object, a handler
    appended by [AppendServiceHandler] or [AppendInstanceHandler] returns
    nil for every event, and on no object at all does it return an error;
    so the error of a chain made of [notify] and such handlers, run on such
    an object, is the error of [notify].  The service callback is called
    exactly when the Service object converts.  The two registrations
    themselves return nil. *)
Lemma appended_handlers_on_mirror_objects :
  (∀ c f item event trace,
     snd (runHandler c (ObjService item) event (Handler_service f) trace)
     = Return None)
  ∧ (∀ c f ep event trace,
       snd (runHandler c (ObjEndpoints ep) event (Handler_instance f) trace)
       = Return None)
  ∧ (∀ c f obj event trace err,
       snd (runHandler c obj event (Handler_service f) trace)
       ≠ Return (Some err)
       ∧ snd (runHandler c obj event (Handler_instance f) trace)
         ≠ Return (Some err))
  ∧ (∀ c fs item event trace,
       snd (Apply c {| funcs := Handler_notify :: map Handler_service fs |}
              (ObjService item) event trace)
       = Return (notify c (ObjService item) event))
  ∧ (∀ c fs ep event trace,
       snd (Apply c {| funcs := Handler_notify :: map Handler_instance fs |}
              (ObjEndpoints ep) event trace)
       = Return (notify c (ObjEndpoints ep) event))
  ∧ (∀ c f item event trace,
       fst (runHandler c (ObjService item) event (Handler_service f) trace)
       = trace ++ match convertService item (domainSuffix c) with
                  | Some svc => [ServiceCall f svc event]
                  | None => []
                  end)
  ∧ (∀ c f,
       snd (AppendServiceHandler c f) = None
       ∧ snd (AppendInstanceHandler c f) = None
       ∧ funcs (handler (services (fst (AppendServiceHandler c f))))
         = funcs (handler (services c)) ++ [Handler_service f]).
Proof.
  split; [|split; [|split; [|split; [|split; [|split]]]]].
  - intros c f item event trace. simpl.
    destruct (convertService item (domainSuffix c)); reflexivity.
  - intros c f ep event trace. simpl.
    destruct (serviceByKey c _ _) as [item|]; [|reflexivity].
    destruct (convertService item (domainSuffix c)); reflexivity.
  - intros c f obj event trace err. split.
    + destruct obj as [item| | | |]; simpl; try discriminate.
      destruct (convertService item (domainSuffix c)); discriminate.
    + destruct obj as [|ep| | |]; simpl; try discriminate.
      destruct (serviceByKey c _ _) as [item|]; [|discriminate].
      destruct (convertService item (domainSuffix c)); discriminate.
  - intros c fs item event trace. unfold Apply. simpl.
    destruct (notify c (ObjService item) event); [reflexivity|].
    apply service_handlers_return_nil.
  - intros c fs ep event trace. unfold Apply. simpl.
    destruct (notify c (ObjEndpoints ep) event); [reflexivity|].
    apply instance_handlers_return_nil.
  - intros c f item event trace. simpl.
    destruct (convertService item (domainSuffix c)); simpl;
      [reflexivity|now rewrite app_nil_r].
  - intros c f. repeat split.
Qed.

(** C10, at its failing input: the tombstone that [DeleteFunc] queues as it
    is after a missed delete.  [notify] takes it (its key function is the
    deletion-handling one), but the handler appended by
    [AppendServiceHandler], and the one appended by [AppendInstanceHandler],
    assert the object to a Service, respectively to Endpoints, and panic on
    it instead of returning nil; so does the run of the Service chain of
    the example once a callback is registered and the controller has
    synced. *)
Theorem appended_handlers_panic_on_tombstone
    (c : Controller) (k : Kind) (q : Queue) (f : Callback) (key : string)
    (last : Obj) (event : model.Event) (trace : list Call) :
  DeleteFunc k (ObjDeletedFinalStateUnknown key last) q
  = q ++ [ {| Task_handler := k;
              Task_obj := ObjDeletedFinalStateUnknown key last;
              Task_event := model.EventDelete |} ]
  ∧ (notify c (ObjDeletedFinalStateUnknown key last) event = None
     ↔ HasSynced c = true)
  ∧ runHandler c (ObjDeletedFinalStateUnknown key last) event
      (Handler_service f) trace = (trace, Panic)
  ∧ runHandler c (ObjDeletedFinalStateUnknown key last) event
      (Handler_instance f) trace = (trace, Panic)
  ∧ Apply c {| funcs := [Handler_notify; Handler_service f] |}
      (ObjDeletedFinalStateUnknown key last) event trace
    = (trace,
       if HasSynced c then Panic
       else Return (Some "Waiting till full synchronization"))
  ∧ Apply c {| funcs := [Handler_notify; Handler_instance f] |}
      (ObjDeletedFinalStateUnknown key last) event trace
    = (trace,
       if HasSynced c then Panic
       else Return (Some "Waiting till full synchronization"))
  ∧ HasSynced example.synced = true
  ∧ Apply (fst (AppendServiceHandler example.synced f))
      (handler (services (fst (AppendServiceHandler example.synced f))))
      example.webTombstone model.EventDelete []
    = ([], Panic).
Proof.
  assert (Hn : ∀ c0 obj ev,
             notify c0 obj ev
             = if HasSynced c0 then None
               else Some "Waiting till full synchronization").
  { intros c0 obj ev. unfold notify. destruct (HasSynced c0); simpl;
      [|reflexivity].
    destruct (DeletionHandlingMetaNamespaceKeyFunc obj); reflexivity. }
  split; [reflexivity|]. split.
  { rewrite Hn. destruct (HasSynced c); split; congruence. }
  split; [reflexivity|]. split; [reflexivity|].
  split; [|split; [|split; [reflexivity|]]].
  - unfold Apply. simpl. rewrite Hn. destruct (HasSynced c); reflexivity.
  - unfold Apply. simpl. rewrite Hn. destruct (HasSynced c); reflexivity.
  - unfold Apply. simpl. rewrite Hn. reflexivity.
Qed.

(** ** The catalog of services *)

Lemma GetByKey_In {T : Type} (s : cache.Store T) (key : string) (item : T) :
  cache.GetByKey s key = Some item → In item (cache.List s).
Proof.
  induction s as [|[k x] s IH]; simpl; [discriminate|].
  destruct (decide (k = key)).
  - intros [= ->]. now left.
  - intros H. right. now apply IH.
Qed.

Lemma In_Services (c : Controller) (svc : model.Service) :
  In svc (Services c) ↔
    ∃ item, In item (cache.List (cache.GetStore (informer (services c))))
            ∧ convertService item (domainSuffix c) = Some svc.
Proof.
  unfold Services. rewrite in_flat_map. split.
  - intros (item & Hin & H).
    destruct (convertService item (domainSuffix c)) as [svc'|] eqn:E;
      [|destruct H].
    destruct H as [<-|[]]. eauto.
  - intros (item & Hin & E). exists item. split; [exact Hin|].
    rewrite E. now left.
Qed.

(** X1: [Services] lists exactly the conversions of the Service mirror's
    entries that convert; an entry that fails conversion is skipped without
    losing the others, so the list is never longer than the mirror and is as
    long when every entry converts. *)
Theorem Services_are_the_converted_entries (c : Controller) :
  (∀ svc,
     In svc (Services c) ↔
       ∃ item, In item (cache.List (cache.GetStore (informer (services c))))
               ∧ convertService item (domainSuffix c) = Some svc)
  ∧ (length (Services c)
     ≤ length (cache.GetStore (informer (services c))))%nat
  ∧ ((∀ item, In item (cache.List (cache.GetStore (informer (services c)))) →
              is_Some (convertService item (domainSuffix c))) →
     length (Services c) = length (cache.GetStore (informer (services c)))).
Proof.
  split; [apply In_Services|].
  unfold Services, cache.List.
  generalize (cache.GetStore (informer (services c))). intros st. split.
  - induction st as [|[k item] st IH]; simpl; [lia|].
    rewrite length_app.
    destruct (convertService item (domainSuffix c)); simpl; lia.
  - induction st as [|[k item] st IH]; simpl; [reflexivity|]. intros Hall.
    rewrite length_app, IH by (intros x Hx; apply Hall; now right).
    destruct (Hall item (or_introl eq_refl)) as [svc ->]. reflexivity.
Qed.

(** X2: whatever [GetService] finds under a hostname is also listed by
    [Services]. *)
Theorem GetService_in_Services (c : Controller) (hostname : string)
    (svc : model.Service) :
  GetService c hostname = Some svc → In svc (Services c).
Proof.
  unfold GetService, serviceByKey.
  destruct (parseHostname hostname) as [[name namespace]|]; [|discriminate].
  destruct (cache.GetByKey _ _) as [item|] eqn:E; [|discriminate].
  intros Hsvc. apply In_Services. exists item.
  split; [now apply GetByKey_In in E|exact Hsvc].
Qed.

(** X3: every instance that [Instances] returns for a hostname carries the
    very service that [GetService] answers for that hostname; so a hostname
    that [GetService] does not resolve has no instances. *)
Theorem Instances_carry_GetService (c : Controller) (hostname : string)
    (ports : list string) (tagsList : model.TagsList) :
  (∀ si, In si (Instances c hostname ports tagsList) →
         is_Some (model.Service_ si)
         ∧ model.Service_ si = GetService c hostname)
  ∧ (GetService c hostname = None → Instances c hostname ports tagsList = []).
Proof.
  split.
  - intros si Hin.
    apply In_Instances in Hin
      as (name & namespace & item & svc & ep & ss & ea & port & svcPort
          & Hp & Hi & Hs & _ & _ & _ & _ & _ & _ & _ & _ & _ & ->).
    unfold GetService. rewrite Hp, Hi, Hs. simpl. eauto.
  - unfold GetService, Instances.
    destruct (parseHostname hostname) as [[name namespace]|]; [|reflexivity].
    destruct (serviceByKey c name namespace) as [item|]; [|reflexivity].
    now intros ->.
Qed.

Lemma no_member_nil {A : Type} (l : list A) : (∀ x, ¬ In x l) → l = [].
Proof.
  destruct l as [|x l]; [reflexivity|]. intros H.
  destruct (H x). now left.
Qed.

(** X4: a query that asks for no port gets no instance, and so does a
    query none of whose port names is a named port of the service. *)
Theorem Instances_without_resolving_port (c : Controller) (hostname : string)
    (tagsList : model.TagsList) :
  Instances c hostname [] tagsList = []
  ∧ ∀ ports svc,
      GetService c hostname = Some svc →
      (∀ port, In port ports →
               model.PortList_Get (model.Ports svc) port = None) →
      Instances c hostname ports tagsList = [].
Proof.
  split.
  - apply no_member_nil. intros si Hin.
    apply In_Instances in Hin
      as (name & namespace & item & svc & ep & ss & ea & port & svcPort
          & _ & _ & _ & _ & _ & _ & _ & _ & _ & _ & [] & _).
  - intros ports svc Hget Hnone. apply no_member_nil. intros si Hin.
    apply In_Instances in Hin
      as (name & namespace & item & svc' & ep & ss & ea & port & svcPort
          & Hp & Hi & Hs & _ & _ & _ & _ & _ & _ & _ & Hreq & Hport & _).
    unfold GetService in Hget. rewrite Hp, Hi, Hs in Hget.
    injection Hget as ->. rewrite (Hnone _ Hreq) in Hport. discriminate.
Qed.

Lemma filter_flat_map {A B : Type} (p : B → bool) (g : A → list B)
    (l : list A) :
  List.filter p (flat_map g l) = flat_map (fun x => List.filter p (g x)) l.
Proof.
  induction l as [|x l IH]; simpl; [reflexivity|].
  now rewrite List.filter_app, IH.
Qed.

Lemma flat_map_pointwise {A B : Type} (g g' : A → list B) (l : list A) :
  (∀ x, g x = g' x) → flat_map g l = flat_map g' l.
Proof.
  intros H. induction l as [|x l IH]; simpl; [reflexivity|].
  now rewrite H, IH.
Qed.

Lemma filter_scanEndpoints (p : model.ServiceInstance → bool)
    (name namespace : string)
    (body : v1.Endpoints → list model.ServiceInstance)
    (items : list v1.Endpoints) :
  List.filter p (scanEndpoints name namespace body items)
  = scanEndpoints name namespace (fun ep => List.filter p (body ep)) items.
Proof.
  induction items as [|ep items IH]; simpl; [reflexivity|].
  destruct (decide _); auto.
Qed.

Lemma scanEndpoints_pointwise (name namespace : string)
    (body body' : v1.Endpoints → list model.ServiceInstance)
    (items : list v1.Endpoints) :
  (∀ ep, body ep = body' ep) →
  scanEndpoints name namespace body items
  = scanEndpoints name namespace body' items.
Proof.
  intros H. induction items as [|ep items IH]; simpl; [reflexivity|].
  destruct (decide _); auto.
Qed.

Lemma filter_instancesOfAddress (tagsList : model.TagsList)
    (svc : model.Service) (svcPorts : gmap string model.Port)
    (ss : v1.EndpointSubset) (ea : v1.EndpointAddress)
    (tags : gmap string string) (az : string) :
  List.filter (fun si => model.HasSubsetOf tagsList (model.Tags si))
    (instancesOfAddress svc svcPorts ss ea tags az)
  = if model.HasSubsetOf tagsList tags
    then instancesOfAddress svc svcPorts ss ea tags az
    else [].
Proof.
  unfold instancesOfAddress. rewrite filter_flat_map.
  destruct (model.HasSubsetOf tagsList tags) eqn:Ht.
  - apply flat_map_pointwise. intros port.
    destruct (svcPorts !! _); simpl; [|reflexivity]. now rewrite Ht.
  - induction (v1.Ports ss) as [|port l IH]; simpl; [reflexivity|].
    rewrite IH. destruct (svcPorts !! _); simpl; [|reflexivity].
    now rewrite Ht.
Qed.

(** X5: the tag filter only ever removes instances: the answer to a
    filtered query is the answer to the same query with the empty filter,
    in the same order, less the instances whose tags the filter does not
    match. *)
Theorem Instances_filter_of_unfiltered (c : Controller) (hostname : string)
    (ports : list string) (tagsList : model.TagsList) :
  Instances c hostname ports tagsList
  = List.filter (fun si => model.HasSubsetOf tagsList (model.Tags si))
      (Instances c hostname ports []).
Proof.
  unfold Instances.
  destruct (parseHostname hostname) as [[name namespace]|]; [|reflexivity].
  destruct (serviceByKey c name namespace) as [item|]; [|reflexivity].
  destruct (convertService item (domainSuffix c)) as [svc|]; [|reflexivity].
  rewrite filter_scanEndpoints. apply scanEndpoints_pointwise. intros ep.
  unfold instancesOfEndpoints. rewrite filter_flat_map.
  apply flat_map_pointwise. intros ss. rewrite filter_flat_map.
  apply flat_map_pointwise. intros ea. simpl.
  rewrite filter_instancesOfAddress.
  destruct (model.HasSubsetOf tagsList _); reflexivity.
Qed.

Lemma locatePorts_same_names (svc : model.Service) (ports ports' : list string) :
  (∀ port, In port ports ↔ In port ports') →
  locatePorts svc ports = locatePorts svc ports'.
Proof.
  intros H. apply map_eq. intros name. apply option_eq. intros svcPort.
  rewrite !locatePorts_lookup, H. reflexivity.
Qed.

Lemma scanEndpoints_incl (name namespace : string)
    (body body' : v1.Endpoints → list model.ServiceInstance)
    (items : list v1.Endpoints) :
  (∀ ep, incl (body ep) (body' ep)) →
  incl (scanEndpoints name namespace body items)
       (scanEndpoints name namespace body' items).
Proof.
  intros H. induction items as [|ep items IH]; simpl; [intros x []|].
  destruct (decide _); auto.
Qed.

(** X6: only the set of requested port names matters to [Instances]:
    asking for a name twice, or in another order, changes nothing, and
    asking for more names never loses an instance. *)
Theorem Instances_by_set_of_ports (c : Controller) (hostname : string)
    (ports ports' : list string) (tagsList : model.TagsList) :
  ((∀ port, In port ports ↔ In port ports') →
   Instances c hostname ports tagsList = Instances c hostname ports' tagsList)
  ∧ ((∀ port, In port ports → In port ports') →
     incl (Instances c hostname ports tagsList)
          (Instances c hostname ports' tagsList)).
Proof.
  split; intros H; unfold Instances.
  - destruct (parseHostname hostname) as [[name namespace]|]; [|reflexivity].
    destruct (serviceByKey c name namespace) as [item|]; [|reflexivity].
    destruct (convertService item (domainSuffix c)) as [svc|]; [|reflexivity].
    now rewrite (locatePorts_same_names svc ports ports' H).
  - destruct (parseHostname hostname) as [[name namespace]|];
      [|intros x []].
    destruct (serviceByKey c name namespace) as [item|]; [|intros x []].
    destruct (convertService item (domainSuffix c)) as [svc|]; [|intros x []].
    apply scanEndpoints_incl. intros ep si Hin.
    apply In_instancesOfEndpoints
      in Hin as (ss & ea & port & svcPort & Hss & Hea & Hp & Ht & Hl & ->).
    apply In_instancesOfEndpoints. exists ss, ea, port, svcPort.
    apply locatePorts_lookup in Hl as [Hreq Hget].
    assert (locatePorts svc ports' !! v1.EndpointPort_Name port
            = Some svcPort) by (apply locatePorts_lookup; auto).
    auto 10.
Qed.

(** ** Instances by address *)

Lemma In_HostInstances (c : Controller) (addrs : gmap string bool)
    (si : model.ServiceInstance) :
  In si (HostInstances c addrs) ↔
    ∃ ep ss ea port item svc svcPort,
      In ep (cache.List (cache.GetStore (informer (endpoints c))))
      ∧ In ss (v1.Subsets ep) ∧ In ea (v1.Addresses ss)
      ∧ addrs !! v1.IP ea = Some true
      ∧ serviceByKey c (v1.Name (v1.Endpoints_ObjectMeta ep))
          (v1.Namespace (v1.Endpoints_ObjectMeta ep)) = Some item
      ∧ convertService item (domainSuffix c) = Some svc
      ∧ In port (v1.Ports ss)
      ∧ model.PortList_Get (model.Ports svc) (v1.EndpointPort_Name port)
        = Some svcPort
      ∧ si = instanceOf c svc svcPort ea port.
Proof.
  unfold HostInstances. rewrite in_flat_map. split.
  - intros (ep & Hep & H). apply in_flat_map in H as (ss & Hss & H).
    apply in_flat_map in H as (ea & Hea & H).
    destruct (addrs !! v1.IP ea) as [[|]|] eqn:Ha; try destruct H.
    destruct (serviceByKey c _ _) as [item|] eqn:Hi; [|destruct H].
    destruct (convertService item (domainSuffix c)) as [svc|] eqn:Hs;
      [|destruct H].
    apply in_flat_map in H as (port & Hport & H).
    destruct (model.PortList_Get _ _) as [svcPort|] eqn:Hg; [|destruct H].
    destruct H as [<-|[]].
    exists ep, ss, ea, port, item, svc, svcPort. auto 10.
  - intros (ep & ss & ea & port & item & svc & svcPort
            & Hep & Hss & Hea & Ha & Hi & Hs & Hport & Hg & ->).
    exists ep. split; [exact Hep|]. apply in_flat_map.
    exists ss. split; [exact Hss|]. apply in_flat_map.
    exists ea. split; [exact Hea|]. rewrite Ha, Hi, Hs. apply in_flat_map.
    exists port. split; [exact Hport|]. rewrite Hg. now left.
Qed.

(** X7: [HostInstances] answers only for the addresses it is asked about
    (those mapped to true), each instance with the service that the Service
    mirror holds for the Endpoints object and with the service port of the
    endpoint port's name; asked about no address, it answers nothing. *)
Theorem HostInstances_only_requested_addresses (c : Controller)
    (addrs : gmap string bool) :
  (∀ si, In si (HostInstances c addrs) →
         addrs !! model.Address (model.Endpoint si) = Some true
         ∧ ∃ svc svcPort,
             model.Service_ si = Some svc
             ∧ In svc (Services c)
             ∧ model.ServicePort (model.Endpoint si) = Some svcPort
             ∧ In svcPort (model.Ports svc))
  ∧ HostInstances c ∅ = []
  ∧ ((∀ ip, addrs !! ip ≠ Some true) → HostInstances c addrs = []).
Proof.
  assert (Hnone : (∀ ip, addrs !! ip ≠ Some true) → HostInstances c addrs = []).
  { intros Hno. apply no_member_nil. intros si Hin.
    apply In_HostInstances in Hin
      as (ep & ss & ea & port & item & svc & svcPort
          & _ & _ & _ & Ha & _). now apply Hno in Ha. }
  split; [|split; [|exact Hnone]].
  - intros si Hin.
    apply In_HostInstances in Hin
      as (ep & ss & ea & port & item & svc & svcPort
          & _ & _ & _ & Ha & Hi & Hs & _ & Hg & ->).
    split; [exact Ha|]. exists svc, svcPort. simpl.
    split; [reflexivity|]. split.
    + apply In_Services. exists item. split; [|exact Hs].
      unfold serviceByKey in Hi. now apply GetByKey_In in Hi.
    + split; [reflexivity|]. now apply PortList_Get_Some in Hg.
  - apply no_member_nil. intros si Hin.
    apply In_HostInstances in Hin
      as (ep & ss & ea & port & item & svc & svcPort
          & _ & _ & _ & Ha & _).
    rewrite lookup_empty in Ha. discriminate.
Qed.

(** X8: the two queries agree: an instance that [Instances] returns for
    some hostname, ports and filter is also returned by [HostInstances] when
    asked about its address. *)
Theorem Instances_in_HostInstances (c : Controller) (hostname : string)
    (ports : list string) (tagsList : model.TagsList)
    (addrs : gmap string bool) (si : model.ServiceInstance) :
  In si (Instances c hostname ports tagsList) →
  addrs !! model.Address (model.Endpoint si) = Some true →
  In si (HostInstances c addrs).
Proof.
  intros Hin Ha.
  apply In_Instances in Hin
    as (name & namespace & item & svc & ep & ss & ea & port & svcPort
        & _ & Hi & Hs & Hep & <- & <- & Hss & Hea & Hport & _ & _ & Hg & ->).
  apply In_HostInstances.
  exists ep, ss, ea, port, item, svc, svcPort. auto 10.
Qed.

(** X9: asking [HostInstances] about more addresses never loses an
    instance, and an address mapped to false counts as not asked about. *)
Theorem HostInstances_monotone (c : Controller) (addrs addrs' : gmap string bool) :
  ((∀ ip, addrs !! ip = Some true → addrs' !! ip = Some true) →
   incl (HostInstances c addrs) (HostInstances c addrs'))
  ∧ ∀ ip, HostInstances c (<[ip := false]> addrs)
          = HostInstances c (delete ip addrs).
Proof.
  split.
  - intros H si Hin.
    apply In_HostInstances in Hin
      as (ep & ss & ea & port & item & svc & svcPort
          & Hep & Hss & Hea & Ha & Hrest).
    apply In_HostInstances.
    exists ep, ss, ea, port, item, svc, svcPort. auto 10.
  - intros ip. unfold HostInstances.
    apply flat_map_pointwise. intros ep.
    apply flat_map_pointwise. intros ss.
    apply flat_map_pointwise. intros ea.
    destruct (decide (ip = v1.IP ea)) as [->|Hne].
    + now rewrite lookup_insert_eq, lookup_delete_eq.
    + now rewrite lookup_insert_ne, lookup_delete_ne by exact Hne.
Qed.

(** X10: as for [Instances], the Node mirror bears on nothing in the answer
    of [HostInstances] but the availability zones. *)
Theorem HostInstances_without_nodes (c c' : Controller)
    (addrs : gmap string bool) :
  domainSuffix c = domainSuffix c' → services c = services c' →
  endpoints c = endpoints c' → pods c = pods c' →
  map forgetAZ (HostInstances c addrs) = map forgetAZ (HostInstances c' addrs).
Proof.
  intros Hd Hs He Hp. unfold HostInstances, serviceByKey.
  rewrite Hd, Hs, He, Hp.
  apply map_flat_map_ext. intros ep.
  apply map_flat_map_ext. intros ss.
  apply map_flat_map_ext. intros ea.
  destruct (addrs !! v1.IP ea) as [[|]|]; try reflexivity.
  destruct (cache.GetByKey _ _) as [item|]; [|reflexivity].
  destruct (convertService item (domainSuffix c')) as [svc|]; [|reflexivity].
  apply map_flat_map_ext. intros port.
  destruct (model.PortList_Get _ _); reflexivity.
Qed.

(** ** Service accounts *)

(** X11: an identity is returned by [GetIstioServiceAccounts] exactly when
    it is the identity, under the controller's domain, of the service
    account and namespace of a pod that the Pod index and the Pod mirror
    know for the address of an instance of the service (any tags); without
    a requested port, or with an empty Pod index, nothing is returned. *)
Theorem GetIstioServiceAccounts_members (c : Controller) (hostname : string)
    (ports : list string) :
  (∀ sa,
     In sa (GetIstioServiceAccounts c hostname ports) ↔
       ∃ si key pod,
         In si (Instances c hostname ports [])
         ∧ keys (pods c) !! model.Address (model.Endpoint si) = Some key
         ∧ cache.GetByKey
             (cache.GetStore (informer (PodCache_cacheHandler (pods c)))) key
           = Some pod
         ∧ sa = generateServiceAccountID
                  (v1.ServiceAccountName (v1.Spec pod))
                  (v1.Namespace (v1.Pod_ObjectMeta pod)) (domainSuffix c))
  ∧ GetIstioServiceAccounts c hostname [] = []
  ∧ (keys (pods c) = ∅ → GetIstioServiceAccounts c hostname ports = []).
Proof.
  assert (Hmem : ∀ ports' sa,
             In sa (GetIstioServiceAccounts c hostname ports') ↔
               sa ∈ saSetOf c (Instances c hostname ports' [])).
  { intros ports' sa. unfold GetIstioServiceAccounts.
    rewrite <- list_elem_of_In. apply elem_of_elements. }
  split; [|split].
  - intros sa. rewrite Hmem. apply saSetOf_elem.
  - apply no_member_nil. intros sa Hin.
    apply Hmem, saSetOf_elem in Hin as (si & key & pod & Hin & _).
    apply In_Instances in Hin
      as (name & namespace & item & svc & ep & ss & ea & port & svcPort
          & _ & _ & _ & _ & _ & _ & _ & _ & _ & _ & [] & _).
  - intros Hk. apply no_member_nil. intros sa Hin.
    apply Hmem, saSetOf_elem in Hin as (si & key & pod & _ & Hkey & _).
    rewrite Hk, lookup_empty in Hkey. discriminate.
Qed.

Lemma append_cons_not_empty (a b : string) (ch : ascii) :
  a +:+ String ch b ≠ "".
Proof. destruct a; discriminate. Qed.

(** X12: the callers of [getPodAZByIP] drop its flag and keep the zone;
    nothing is lost by that, for the zone is empty exactly when the lookup
    failed. *)
Theorem getPodAZByIP_empty_iff_failed (c : Controller) (addr : string) :
  fst (getPodAZByIP c addr) = "" ↔ snd (getPodAZByIP c addr) = false.
Proof.
  destruct (getPodAZByIP_cases c addr)
    as [(pod & node & region & zone & _ & _ & _ & _ & ->)|[-> _]]; simpl.
  - split; [|discriminate]. intros H.
    now apply append_cons_not_empty in H.
  - split; reflexivity.
Qed.

Lemma slashless_split (a a' r r' : string) :
  slashless a = true → slashless a' = true →
  a +:+ String "/" r = a' +:+ String "/" r' → a = a' ∧ r = r'.
Proof.
  revert a'. induction a as [|ch a IH]; intros [|ch' a'] Ha Ha' E.
  - injection E as ->. auto.
  - change (String "/" r = String ch' (a' +:+ String "/" r')) in E.
    injection E as <- _. simpl in Ha'. discriminate.
  - change (String ch (a +:+ String "/" r) = String "/" r') in E.
    injection E as -> _. simpl in Ha. discriminate.
  - change (String ch (a +:+ String "/" r)
            = String ch' (a' +:+ String "/" r')) in E.
    injection E as -> E. simpl in Ha, Ha'.
    destruct (decide (ch' = "/"%char)); [discriminate|].
    destruct (IH a' Ha Ha' E) as [-> ->]. auto.
Qed.

(** X13: under one domain, two accounts have the same identity only if
    they are the same account of the same namespace, namespaces holding no
    "/". *)
Theorem generateServiceAccountID_injective
    (domain sa ns sa' ns' : string) :
  slashless ns = true → slashless ns' = true →
  generateServiceAccountID sa ns domain = generateServiceAccountID sa' ns' domain →
  sa = sa' ∧ ns = ns'.
Proof.
  intros Hn Hn' E. unfold generateServiceAccountID in E.
  do 4 apply String.app_inj in E.
  change (ns +:+ String "/" ("sa/" +:+ sa)
          = ns' +:+ String "/" ("sa/" +:+ sa')) in E.
  apply slashless_split in E as [-> E]; [|assumption..].
  apply String.app_inj in E. auto.
Qed.

(** ** Chains of handlers *)

Lemma funcs_foldl_Append (ch : ChainHandler) (hs : list Handler) :
  funcs (foldl Append ch hs) = funcs ch ++ hs.
Proof.
  revert ch. induction hs as [|h hs IH]; intros ch; simpl.
  - now rewrite app_nil_r.
  - rewrite IH. simpl. now rewrite <- app_assoc.
Qed.

(** X14: whatever is appended to a chain that [createInformer] made, and
    whatever the object, before the controller has synced a run of the
    chain stops at [notify]: it returns the error and no appended handler
    runs. *)
Theorem chain_stops_until_synced (T : Type) (c : Controller)
    (hs : list Handler) (obj : Obj) (event : model.Event)
    (trace : list Call) :
  HasSynced c = false →
  Apply c (foldl Append (handler (@createInformer T)) hs) obj event trace
  = (trace, Return (Some "Waiting till full synchronization")).
Proof.
  intros Hs. unfold Apply. rewrite funcs_foldl_Append. simpl.
  unfold notify. now rewrite Hs.
Qed.

Lemma Apply_funcs_service_handlers (c : Controller) (fs : list Callback)
    (item : v1.Service) (event : model.Event) (trace : list Call) :
  Apply_funcs (runHandler c (ObjService item) event)
    (map Handler_service fs) trace
  = (trace ++ match convertService item (domainSuffix c) with
              | Some svc => map (fun f => ServiceCall f svc event) fs
              | None => []
              end,
     Return None).
Proof.
  revert trace. induction fs as [|f fs IH]; intros trace; simpl.
  - destruct (convertService item (domainSuffix c)); now rewrite app_nil_r.
  - destruct (convertService item (domainSuffix c)) as [svc|] eqn:E.
    + rewrite IH, ?E. now rewrite <- app_assoc.
    + rewrite IH, ?E. reflexivity.
Qed.

Lemma foldl_AppendServiceHandler (fs : list Callback) (c : Controller) :
  let c' := foldl (fun c0 f => fst (AppendServiceHandler c0 f)) c fs in
  domainSuffix c' = domainSuffix c
  ∧ informer (services c') = informer (services c)
  ∧ funcs (handler (services c'))
    = funcs (handler (services c)) ++ map Handler_service fs
  ∧ endpoints c' = endpoints c ∧ pods c' = pods c ∧ nodes c' = nodes c.
Proof.
  revert c. induction fs as [|f fs IH]; intros c; simpl.
  - rewrite app_nil_r. auto 10.
  - destruct (IH (fst (AppendServiceHandler c f)))
      as (H1 & H2 & H3 & H4 & H5 & H6).
    simpl in *. rewrite H1, H2, H3, H4, H5, H6, <- app_assoc. auto 10.
Qed.

(** X15: after any number of [AppendServiceHandler] registrations on a
    fresh Service chain, an event on a Service object, once the controller
    has synced, calls every registered callback exactly once, in the order
    of registration, with the converted service (and calls none when the
    object does not convert), and the chain returns nil; before that it
    calls none and returns the error of [notify]. *)
Theorem service_callbacks_in_registration_order (c : Controller)
    (fs : list Callback) (item : v1.Service) (event : model.Event)
    (trace : list Call) :
  funcs (handler (services c)) = [Handler_notify] →
  let c' := foldl (fun c0 f => fst (AppendServiceHandler c0 f)) c fs in
  Apply c' (handler (services c')) (ObjService item) event trace
  = if HasSynced c
    then (trace ++ match convertService item (domainSuffix c) with
                   | Some svc => map (fun f => ServiceCall f svc event) fs
                   | None => []
                   end,
          Return None)
    else (trace, Return (Some "Waiting till full synchronization")).
Proof.
  intros Hfresh c'.
  destruct (foldl_AppendServiceHandler fs c) as (H1 & H2 & H3 & H4 & H5 & _).
  fold c' in H1, H2, H3, H4, H5.
  unfold Apply. rewrite H3, Hfresh. simpl.
  assert (Hsync : HasSynced c' = HasSynced c).
  { unfold HasSynced. now rewrite H2, H4, H5. }
  unfold notify. rewrite Hsync.
  destruct (HasSynced c); simpl; [|reflexivity].
  destruct (DeletionHandlingMetaNamespaceKeyFunc (ObjService item));
    now rewrite Apply_funcs_service_handlers, H1.
Qed.

Lemma Apply_funcs_instance_handlers (c : Controller) (fs : list Callback)
    (ep : v1.Endpoints) (event : model.Event) (trace : list Call) :
  Apply_funcs (runHandler c (ObjEndpoints ep) event)
    (map Handler_instance fs) trace
  = (trace
     ++ match serviceByKey c (v1.Name (v1.Endpoints_ObjectMeta ep))
                             (v1.Namespace (v1.Endpoints_ObjectMeta ep)) with
        | Some item =>
            match convertService item (domainSuffix c) with
            | Some svc =>
                map (fun f =>
                       InstanceCall f
                         {| model.Endpoint := model.NetworkEndpoint_zero;
                            model.Service_ := Some svc;
                            model.Tags := ∅;
                            model.AvailabilityZone := "" |}
                         event) fs
            | None => []
            end
        | None => []
        end,
     Return None).
Proof.
  revert trace. induction fs as [|f fs IH]; intros trace; simpl.
  - destruct (serviceByKey c _ _) as [item|];
      [destruct (convertService item (domainSuffix c))|];
      now rewrite app_nil_r.
  - destruct (serviceByKey c _ _) as [item|] eqn:Ei.
    + destruct (convertService item (domainSuffix c)) as [svc|] eqn:E.
      * rewrite IH, ?Ei, ?E. now rewrite <- app_assoc.
      * rewrite IH, ?Ei, ?E. reflexivity.
    + rewrite IH, ?Ei. reflexivity.
Qed.

Lemma foldl_AppendInstanceHandler (fs : list Callback) (c : Controller) :
  let c' := foldl (fun c0 f => fst (AppendInstanceHandler c0 f)) c fs in
  domainSuffix c' = domainSuffix c
  ∧ informer (endpoints c') = informer (endpoints c)
  ∧ funcs (handler (endpoints c'))
    = funcs (handler (endpoints c)) ++ map Handler_instance fs
  ∧ services c' = services c ∧ pods c' = pods c ∧ nodes c' = nodes c.
Proof.
  revert c. induction fs as [|f fs IH]; intros c; simpl.
  - rewrite app_nil_r. auto 10.
  - destruct (IH (fst (AppendInstanceHandler c f)))
      as (H1 & H2 & H3 & H4 & H5 & H6).
    simpl in *. rewrite H1, H2, H3, H4, H5, H6, <- app_assoc. auto 10.
Qed.

(** X16: likewise for [AppendInstanceHandler] on a fresh Endpoints chain:
    once the controller has synced, an event on an Endpoints object calls
    every registered callback once, in the order of registration, with the
    service of the object's name and namespace, when the Service mirror has
    it and it converts, and calls none otherwise; the chain returns nil. *)
Theorem instance_callbacks_in_registration_order (c : Controller)
    (fs : list Callback) (ep : v1.Endpoints) (event : model.Event)
    (trace : list Call) :
  funcs (handler (endpoints c)) = [Handler_notify] →
  let c' := foldl (fun c0 f => fst (AppendInstanceHandler c0 f)) c fs in
  Apply c' (handler (endpoints c')) (ObjEndpoints ep) event trace
  = if HasSynced c
    then (trace
          ++ match serviceByKey c (v1.Name (v1.Endpoints_ObjectMeta ep))
                   (v1.Namespace (v1.Endpoints_ObjectMeta ep)) with
             | Some item =>
                 match convertService item (domainSuffix c) with
                 | Some svc =>
                     map (fun f =>
                            InstanceCall f
                              {| model.Endpoint := model.NetworkEndpoint_zero;
                                 model.Service_ := Some svc;
                                 model.Tags := ∅;
                                 model.AvailabilityZone := "" |}
                              event) fs
                 | None => []
                 end
             | None => []
             end,
          Return None)
    else (trace, Return (Some "Waiting till full synchronization")).
Proof.
  intros Hfresh c'.
  destruct (foldl_AppendInstanceHandler fs c) as (H1 & H2 & H3 & H4 & H5 & _).
  fold c' in H1, H2, H3, H4, H5.
  unfold Apply. rewrite H3, Hfresh. simpl.
  assert (Hsync : HasSynced c' = HasSynced c).
  { unfold HasSynced. now rewrite H2, H4, H5. }
  unfold notify. rewrite Hsync.
  destruct (HasSynced c); simpl; [|reflexivity].
  assert (Hkey : ∀ name namespace,
             serviceByKey c' name namespace = serviceByKey c name namespace).
  { intros name namespace. unfold serviceByKey. now rewrite H4. }
  destruct (DeletionHandlingMetaNamespaceKeyFunc (ObjEndpoints ep));
    now rewrite Apply_funcs_instance_handlers, Hkey, H1.
Qed.

(** X17: the event handlers only ever add to the back of the queue: after
    any run of notifications of a mirror the tasks that were queued are
    still there, in their order, followed by the new tasks, which all refer
    to the chain of that mirror and carry, in the order of delivery, the
    added objects, the new values of the changed objects and the deleted
    objects. *)
Theorem deliver_keeps_queue_order (k : Kind) (q : Queue)
    (ns : list Notification) :
  ∃ pushed,
    foldl (deliver k) q ns = q ++ pushed
    ∧ Forall (fun t => Task_handler t = k) pushed
    ∧ map (fun t => (Task_obj t, Task_event t)) pushed
      = flat_map (fun n =>
                    match n with
                    | OnAdd obj => [(obj, model.EventAdd)]
                    | OnUpdate old cur =>
                        if DeepEqual old cur then []
                        else [(cur, model.EventUpdate)]
                    | OnDelete obj => [(obj, model.EventDelete)]
                    end) ns.
Proof.
  rewrite deliver_all. eexists. split; [reflexivity|].
  induction ns as [|n ns [IH1 IH2]]; simpl; [split; [constructor|reflexivity]|].
  rewrite map_app, IH2. split.
  - apply Forall_app. split; [|exact IH1].
    destruct n as [obj|old cur|obj]; simpl;
      [|destruct (DeepEqual old cur)|]; repeat constructor.
  - f_equal. destruct n as [obj|old cur|obj]; simpl;
      [|destruct (DeepEqual old cur)|]; reflexivity.
Qed.

(** X18: the other way round, an instance that [HostInstances] returns
    comes from an Endpoints object of the mirror, and [Instances] returns it
    too, for any hostname that parses to the name and namespace of that
    object (the mirror's entry for them), any list of ports that has the
    name of its service port, and the empty filter. *)
Theorem HostInstances_in_Instances (c : Controller)
    (addrs : gmap string bool) (si : model.ServiceInstance) :
  In si (HostInstances c addrs) →
  ∃ ep svcPort,
    In ep (cache.List (cache.GetStore (informer (endpoints c))))
    ∧ model.ServicePort (model.Endpoint si) = Some svcPort
    ∧ ∀ hostname ports,
        parseHostname hostname
        = Some (v1.Name (v1.Endpoints_ObjectMeta ep),
                v1.Namespace (v1.Endpoints_ObjectMeta ep)) →
        endpointsEntry c (v1.Name (v1.Endpoints_ObjectMeta ep))
          (v1.Namespace (v1.Endpoints_ObjectMeta ep)) ep →
        In (model.Port_Name svcPort) ports →
        In si (Instances c hostname ports []).
Proof.
  intros Hin.
  apply In_HostInstances in Hin
    as (ep & ss & ea & port & item & svc & svcPort
        & Hep & Hss & Hea & _ & Hi & Hs & Hport & Hg & ->).
  exists ep, svcPort. split; [exact Hep|]. split; [reflexivity|].
  intros hostname ports Hparse Hentry Hreq.
  apply (In_Instances_joined c hostname _ _ item svc ep Hparse Hi Hs Hentry).
  exists ss, ea, port, svcPort.
  destruct (PortList_Get_Some _ _ _ Hg) as [Hname _].
  rewrite Hname in Hreq. auto 10.
Qed.

(** X19: a controller that [NewController] has just made has not synced,
    so [notify] fails on every object; it carries the domain suffix of its
    options and an empty queue; its Service and Endpoints chains hold
    [notify] alone; and every catalog query on it answers with nothing. *)
Theorem NewController_starts_empty (options : ControllerOptions) :
  let c := NewController options in
  HasSynced c = false
  ∧ (∀ obj event, is_Some (notify c obj event))
  ∧ domainSuffix c = DomainSuffix options
  ∧ queue c = []
  ∧ funcs (handler (services c)) = [Handler_notify]
  ∧ funcs (handler (endpoints c)) = [Handler_notify]
  ∧ Services c = []
  ∧ (∀ hostname, GetService c hostname = None)
  ∧ (∀ hostname ports tagsList, Instances c hostname ports tagsList = [])
  ∧ (∀ addrs, HostInstances c addrs = [])
  ∧ (∀ hostname ports, GetIstioServiceAccounts c hostname ports = []).
Proof.
  intros c.
  assert (Hinst : ∀ hostname ports tagsList,
             Instances c hostname ports tagsList = []).
  { intros hostname ports tagsList. unfold Instances.
    destruct (parseHostname hostname) as [[name namespace]|]; reflexivity. }
  repeat split; try reflexivity.
  - intros obj event. unfold notify. simpl. eauto.
  - intros hostname. unfold GetService.
    destruct (parseHostname hostname) as [[name namespace]|]; reflexivity.
  - exact Hinst.
  - intros hostname ports. unfold GetIstioServiceAccounts.
    rewrite Hinst. apply elements_empty.
Qed.

End Controller.

(** ** Hostnames *)

Lemma append_empty_r (s : string) : s +:+ "" = s.
Proof.
  induction s as [|ch s IH]; [reflexivity|].
  change (String ch (s +:+ "") = String ch s). congruence.
Qed.

Lemma Split_nonempty (s : string) : conversion.Split s ≠ [].
Proof.
  destruct s as [|ch s]; simpl; [discriminate|].
  destruct (decide (ch = "."%char)); [discriminate|].
  destruct (conversion.Split s); discriminate.
Qed.

(** Up to its first ".", a string is the first part. *)
Lemma Split_first (a b : string) :
  conversion.dotless a = true →
  conversion.Split (a +:+ "." +:+ b) = a :: conversion.Split b.
Proof.
  induction a as [|ch a IH]; intros Ha.
  - reflexivity.
  - simpl in Ha.
    change (String ch a +:+ "." +:+ b) with (String ch (a +:+ "." +:+ b)).
    simpl conversion.Split.
    destruct (decide (ch = "."%char)); [discriminate|].
    now rewrite (IH Ha).
Qed.

Lemma Split_dotless (s : string) :
  Forall (fun part => conversion.dotless part = true) (conversion.Split s).
Proof.
  induction s as [|ch s IH]; simpl.
  - repeat constructor.
  - destruct (decide (ch = "."%char)) as [E|E].
    + constructor; [reflexivity|exact IH].
    + destruct (conversion.Split s) as [|part parts].
      * repeat constructor. simpl. now rewrite decide_False.
      * apply Forall_cons in IH as [Hp Hps]. constructor; [|assumption].
        simpl. now rewrite decide_False.
Qed.

Lemma Join_Split (s : string) : conversion.Join (conversion.Split s) = s.
Proof.
  induction s as [|ch s IH]; [reflexivity|].
  simpl conversion.Split.
  pose proof (Split_nonempty s) as Hne.
  destruct (decide (ch = "."%char)) as [->|E].
  - destruct (conversion.Split s) as [|part parts]; [contradiction|].
    change (conversion.Join ("" :: part :: parts))
      with ("" +:+ "." +:+ conversion.Join (part :: parts)).
    now rewrite IH.
  - destruct (conversion.Split s) as [|part parts]; [contradiction|].
    destruct parts as [|part' parts].
    + simpl in *. congruence.
    + change (conversion.Join (String ch part :: part' :: parts))
        with (String ch (part +:+ "." +:+ conversion.Join (part' :: parts))).
      change (conversion.Join (part :: part' :: parts))
        with (part +:+ "." +:+ conversion.Join (part' :: parts)) in IH.
      now rewrite IH.
Qed.

Lemma parseHostname_serviceHostname (name namespace domainSuffix : string) :
  conversion.dotless name = true → conversion.dotless namespace = true →
  conversion.parseHostname
    (conversion.serviceHostname name namespace domainSuffix)
  = Some (name, namespace).
Proof.
  intros Hn Hs. unfold conversion.parseHostname, conversion.serviceHostname.
  rewrite (Split_first _ _ Hn), (Split_first _ _ Hs). reflexivity.
Qed.

Lemma parseHostname_parts (hostname name namespace : string) :
  conversion.parseHostname hostname = Some (name, namespace) →
  conversion.dotless name = true ∧ conversion.dotless namespace = true
  ∧ ∃ rest, hostname = name +:+ "." +:+ namespace +:+ rest
            ∧ ∀ domainSuffix,
                conversion.serviceHostname name namespace domainSuffix
                = hostname
                ↔ rest = "." +:+ domainSuffix.
Proof.
  unfold conversion.parseHostname. intros H.
  pose proof (Join_Split hostname) as Hj.
  pose proof (Split_dotless hostname) as Hd.
  destruct (conversion.Split hostname) as [|n [|ns tl]]; try discriminate.
  injection H as -> ->.
  apply Forall_cons in Hd as [Hn Hd]. apply Forall_cons in Hd as [Hs _].
  split; [exact Hn|split; [exact Hs|]].
  exists (match tl with [] => "" | _ => "." +:+ conversion.Join tl end).
  assert (Hh : hostname
               = name +:+ "." +:+ namespace
                 +:+ match tl with
                     | [] => ""
                     | _ => "." +:+ conversion.Join tl
                     end).
  { rewrite <- Hj. destruct tl as [|t tl].
    - now rewrite append_empty_r.
    - reflexivity. }
  split; [exact Hh|].
  intros domainSuffix. unfold conversion.serviceHostname.
  rewrite Hh at 1. split.
  - intros E. apply String.app_inj in E. apply String.app_inj in E.
    apply String.app_inj in E. now symmetry.
  - now intros ->.
Qed.

(** Whatever the parser, it cannot give back every name and namespace:
    two pairs of them make the same hostname. *)
Lemma serviceHostname_shared (domainSuffix : string) :
  conversion.serviceHostname "a.b" "c" domainSuffix
  = conversion.serviceHostname "a" "b.c" domainSuffix.
Proof. reflexivity. Qed.

(** C8, as the spec has it, fails: the hostname of the service "a.b" in the
    namespace "c" parses to the name "a" and the namespace "b". *)
Lemma parseHostname_not_inverse :
  ¬ (∀ name namespace domainSuffix,
       conversion.parseHostname
         (conversion.serviceHostname name namespace domainSuffix)
       = Some (name, namespace)).
Proof.
  intros H. specialize (H "a.b" "c" "cluster.local"). vm_compute in H.
  discriminate H.
Qed.

(** C8, amended: for a name and a namespace without ".", parsing the
    hostname "<name>.<namespace>.<suffix>" gives back exactly them, so two
    such hostnames are equal only for the same name and namespace; and a
    hostname that the parser accepts is its parsed name, ".", its parsed
    namespace (neither with a ".") and a remainder, and it is built again
    from the parsed name and namespace and a suffix exactly when the
    remainder is "." and that suffix.  With this parser, [GetService] on the
    hostname of a name and a namespace without "." looks the Service mirror
    up under that very name and namespace. *)
Theorem parseHostname_inverse_on_labels :
  (∀ name namespace domainSuffix,
     conversion.dotless name = true → conversion.dotless namespace = true →
     conversion.parseHostname
       (conversion.serviceHostname name namespace domainSuffix)
     = Some (name, namespace))
  ∧ (∀ name namespace domainSuffix name' namespace' domainSuffix',
       conversion.dotless name = true → conversion.dotless namespace = true →
       conversion.dotless name' = true → conversion.dotless namespace' = true →
       conversion.serviceHostname name namespace domainSuffix
       = conversion.serviceHostname name' namespace' domainSuffix' →
       name = name' ∧ namespace = namespace')
  ∧ (∀ hostname name namespace,
       conversion.parseHostname hostname = Some (name, namespace) →
       conversion.dotless name = true ∧ conversion.dotless namespace = true
       ∧ ∃ rest, hostname = name +:+ "." +:+ namespace +:+ rest
                 ∧ ∀ domainSuffix,
                     conversion.serviceHostname name namespace domainSuffix
                     = hostname
                     ↔ rest = "." +:+ domainSuffix)
  ∧ (∀ convertService KeyFunc c name namespace suffix,
       conversion.dotless name = true → conversion.dotless namespace = true →
       GetService conversion.parseHostname convertService KeyFunc c
         (conversion.serviceHostname name namespace suffix)
       = match serviceByKey KeyFunc c name namespace with
         | Some item => convertService item (domainSuffix c)
         | None => None
         end).
Proof.
  split; [|split; [|split]]; cycle 3.
  - intros convertService KeyFunc c name namespace suffix Hn Hs.
    unfold GetService.
    now rewrite (parseHostname_serviceHostname _ _ _ Hn Hs).
  - apply parseHostname_serviceHostname.
  - intros name namespace domainSuffix name' namespace' domainSuffix'
      Hn Hs Hn' Hs' E.
    pose proof (parseHostname_serviceHostname name namespace domainSuffix
                  Hn Hs) as H.
    rewrite E, (parseHostname_serviceHostname _ _ _ Hn' Hs') in H.
    injection H as -> ->. auto.
  - apply parseHostname_parts.
Qed.

(** ** The controller on the example cluster *)

Lemma example_endpointsEntry (c : Controller) :
  cache.List (cache.GetStore (informer (endpoints c))) = [example.webEndpoints] →
  endpointsEntry c "web" "default" example.webEndpoints.
Proof.
  intros H. unfold endpointsEntry. rewrite H.
  split; [now left|]. split; [reflexivity|]. split; [reflexivity|].
  intros ep' [<-|[]] _ _. reflexivity.
Qed.

(** The query of C3 on the example: one instance, on the port "http". *)
Lemma Instances_requested_ports_only_witness :
  Instances conversion.parseHostname conversion.convertService
    conversion.KeyFunc example.synced "web.default.cluster.local" ["http"] []
  = [ {| model.Endpoint :=
           {| model.Address := "10.0.0.1";
              model.Endpoint_Port := 80;
              model.ServicePort :=
                Some example.webHttp |};
         model.Service_ := Some example.web;
         model.Tags := example.webTags;
         model.AvailabilityZone := "us-east1/us-east1-b" |} ].
Proof.
  apply (proj1 (Instances_requested_ports_only conversion.parseHostname
                  conversion.convertService conversion.KeyFunc)
           example.synced "web.default.cluster.local" "web" "default"
           example.webService example.web example.webEndpoints example.webAddress
           "TCP" "TCP" 80%Z 90%Z).
  - reflexivity.
  - reflexivity.
  - reflexivity.
  - apply example_endpointsEntry. reflexivity.
  - reflexivity.
  - reflexivity.
Defined.

(** C4 on the example: the address, tagged {version: v1, env: prod},
    contributes to a query filtered by {version: v1}. *)
Lemma Instances_tag_filter_witness :
  ∃ si,
    In si (Instances conversion.parseHostname conversion.convertService
             conversion.KeyFunc example.synced "web.default.cluster.local"
             ["http"] [ {[ "version" := "v1" ]} ])
    ∧ model.Address (model.Endpoint si) = "10.0.0.1".
Proof.
  apply (proj1 (proj2 (Instances_tag_filter conversion.parseHostname
                         conversion.convertService conversion.KeyFunc))
           example.synced "web.default.cluster.local" "web" "default"
           example.webService example.web example.webEndpoints ["http"]
           [ {[ "version" := "v1" ]} ] example.webSubset example.webAddress
           {| v1.EndpointPort_Name := "http"; v1.EndpointPort_Port := 80 |}
           example.webHttp).
  - reflexivity.
  - reflexivity.
  - reflexivity.
  - apply example_endpointsEntry. reflexivity.
  - now left.
  - now left.
  - now left.
  - now left.
  - reflexivity.
  - vm_compute. reflexivity.
Defined.

(** C6 on the example: before the pod of the address is indexed, the
    instance is returned all the same, with an empty zone. *)
Lemma locality_lookup_never_drops_witness :
  In {| model.Endpoint :=
          {| model.Address := "10.0.0.1";
             model.Endpoint_Port := 80;
             model.ServicePort :=
               Some example.webHttp |};
        model.Service_ := Some example.web;
        model.Tags := ∅;
        model.AvailabilityZone := "" |}
     (Instances conversion.parseHostname conversion.convertService
        conversion.KeyFunc example.podNotIndexed "web.default.cluster.local"
        ["http"] []).
Proof.
  apply (proj1 (proj2 (proj2 (locality_lookup_never_drops
                                conversion.parseHostname
                                conversion.convertService conversion.KeyFunc)))
           example.podNotIndexed "web.default.cluster.local" "web" "default"
           example.webService example.web example.webEndpoints ["http"] []
           example.webSubset example.webAddress
           {| v1.EndpointPort_Name := "http"; v1.EndpointPort_Port := 80 |}
           example.webHttp).
  - reflexivity.
  - reflexivity.
  - reflexivity.
  - apply example_endpointsEntry. reflexivity.
  - now left.
  - now left.
  - now left.
  - now left.
  - reflexivity.
  - reflexivity.
Defined.

(** C8 on the example: the hostname of "web" in "default". *)
Lemma parseHostname_inverse_on_labels_witness :
  conversion.parseHostname "web.default.cluster.local"
  = Some ("web", "default").
Proof.
  apply (proj1 parseHostname_inverse_on_labels "web" "default" "cluster.local");
    reflexivity.
Defined.

(** C9 on the example: an event on the Endpoints of "web" calls the
    callback with the service "web" and nothing else. *)
Lemma instance_handler_passes_service_only_witness :
  runHandler conversion.convertService conversion.KeyFunc example.keyOf
    example.synced (ObjEndpoints example.webEndpoints) model.EventUpdate
    (Handler_instance 0) []
  = ([InstanceCall 0
        {| model.Endpoint := model.NetworkEndpoint_zero;
           model.Service_ := Some example.web;
           model.Tags := ∅;
           model.AvailabilityZone := "" |}
        model.EventUpdate],
     Return None).
Proof.
  apply (proj1 (instance_handler_passes_service_only
                  conversion.convertService conversion.KeyFunc example.keyOf)
           example.synced 0 example.webEndpoints model.EventUpdate []
           example.webService); reflexivity.
Defined.

(** ** The further properties on the example cluster *)

Lemma Services_are_the_converted_entries_witness :
  length (Services conversion.convertService example.synced) = 1%nat.
Proof.
  apply (proj2 (proj2 (Services_are_the_converted_entries
                         conversion.convertService example.synced))).
  intros item _. eexists. reflexivity.
Defined.

Lemma GetService_in_Services_witness :
  In example.web (Services conversion.convertService example.synced).
Proof.
  apply (GetService_in_Services conversion.parseHostname
           conversion.convertService conversion.KeyFunc example.synced
           "web.default.cluster.local").
  reflexivity.
Defined.

Lemma Instances_carry_GetService_witness :
  is_Some (model.Service_ example.webInstance)
  ∧ model.Service_ example.webInstance
    = GetService conversion.parseHostname conversion.convertService
        conversion.KeyFunc example.synced "web.default.cluster.local".
Proof.
  apply (proj1 (Instances_carry_GetService conversion.parseHostname
                  conversion.convertService conversion.KeyFunc example.synced
                  "web.default.cluster.local" ["http"] [])).
  vm_compute. left. reflexivity.
Defined.

Lemma Instances_without_resolving_port_witness :
  Instances conversion.parseHostname conversion.convertService
    conversion.KeyFunc example.synced "web.default.cluster.local"
    ["metrics"] [] = [].
Proof.
  apply (proj2 (Instances_without_resolving_port conversion.parseHostname
                  conversion.convertService conversion.KeyFunc example.synced
                  "web.default.cluster.local" [])
           ["metrics"] example.web).
  - reflexivity.
  - intros port [<-|[]]. reflexivity.
Defined.

Lemma Instances_by_set_of_ports_witness :
  Instances conversion.parseHostname conversion.convertService
    conversion.KeyFunc example.synced "web.default.cluster.local"
    ["http"; "grpc"; "http"] []
  = Instances conversion.parseHostname conversion.convertService
      conversion.KeyFunc example.synced "web.default.cluster.local"
      ["grpc"; "http"] [].
Proof.
  apply (proj1 (Instances_by_set_of_ports conversion.parseHostname
                  conversion.convertService conversion.KeyFunc example.synced
                  "web.default.cluster.local" ["http"; "grpc"; "http"]
                  ["grpc"; "http"] [])).
  intros port. simpl. tauto.
Defined.

Lemma HostInstances_only_requested_addresses_witness :
  ({[ "10.0.0.1" := true ]} : gmap string bool)
    !! model.Address (model.Endpoint example.webInstance) = Some true
  ∧ ∃ svc svcPort,
      model.Service_ example.webInstance = Some svc
      ∧ In svc (Services conversion.convertService example.synced)
      ∧ model.ServicePort (model.Endpoint example.webInstance) = Some svcPort
      ∧ In svcPort (model.Ports svc).
Proof.
  apply (proj1 (HostInstances_only_requested_addresses
                  conversion.convertService conversion.KeyFunc example.synced
                  {[ "10.0.0.1" := true ]})).
  vm_compute. left. reflexivity.
Defined.

Lemma Instances_in_HostInstances_witness :
  In example.webInstance
     (HostInstances conversion.convertService conversion.KeyFunc
        example.synced {[ "10.0.0.1" := true ]}).
Proof.
  apply (Instances_in_HostInstances conversion.parseHostname
           conversion.convertService conversion.KeyFunc example.synced
           "web.default.cluster.local" ["http"] []).
  - vm_compute. left. reflexivity.
  - vm_compute. reflexivity.
Defined.

Lemma HostInstances_monotone_witness :
  incl (HostInstances conversion.convertService conversion.KeyFunc
          example.synced {[ "10.0.0.1" := true ]})
       (HostInstances conversion.convertService conversion.KeyFunc
          example.synced
          (<[ "10.0.0.2" := true ]> {[ "10.0.0.1" := true ]})).
Proof.
  apply (proj1 (HostInstances_monotone conversion.convertService
                  conversion.KeyFunc example.synced
                  {[ "10.0.0.1" := true ]}
                  (<[ "10.0.0.2" := true ]> {[ "10.0.0.1" := true ]}))).
  intros ip H. rewrite lookup_insert_ne; [exact H|].
  intros <-. vm_compute in H. discriminate H.
Defined.

Lemma HostInstances_without_nodes_witness :
  map forgetAZ (HostInstances conversion.convertService conversion.KeyFunc
                  example.synced {[ "10.0.0.1" := true ]})
  = map forgetAZ (HostInstances conversion.convertService conversion.KeyFunc
                    example.nodesNotListed {[ "10.0.0.1" := true ]}).
Proof.
  apply (HostInstances_without_nodes conversion.convertService
           conversion.KeyFunc example.synced example.nodesNotListed);
    reflexivity.
Defined.

Lemma GetIstioServiceAccounts_members_witness :
  GetIstioServiceAccounts conversion.parseHostname conversion.convertService
    conversion.KeyFunc example.podNotIndexed "web.default.cluster.local"
    ["http"] = [].
Proof.
  apply (proj2 (proj2 (GetIstioServiceAccounts_members
                         conversion.parseHostname conversion.convertService
                         conversion.KeyFunc example.podNotIndexed
                         "web.default.cluster.local" ["http"]))).
  reflexivity.
Defined.

Lemma generateServiceAccountID_injective_witness :
  "bar" = "bar" ∧ "foo" = "foo".
Proof.
  apply (generateServiceAccountID_injective "cluster.local"
           "bar" "foo" "bar" "foo"); reflexivity.
Defined.

Lemma chain_stops_until_synced_witness :
  Apply conversion.convertService conversion.KeyFunc example.keyOf
    example.fresh
    (foldl Append (handler (@createInformer v1.Pod)) [Handler_service 0])
    (ObjPod example.webPod) model.EventAdd []
  = ([], Return (Some "Waiting till full synchronization")).
Proof.
  apply (chain_stops_until_synced conversion.convertService
           conversion.KeyFunc example.keyOf v1.Pod example.fresh
           [Handler_service 0] (ObjPod example.webPod) model.EventAdd []).
  reflexivity.
Defined.

Lemma service_callbacks_in_registration_order_witness :
  let c' := foldl (fun c0 f => fst (AppendServiceHandler c0 f))
              example.synced [0; 1]%nat in
  Apply conversion.convertService conversion.KeyFunc example.keyOf c'
    (handler (services c')) (ObjService example.webService)
    model.EventUpdate []
  = ([ServiceCall 0 example.web model.EventUpdate;
      ServiceCall 1 example.web model.EventUpdate],
     Return None).
Proof.
  apply (service_callbacks_in_registration_order conversion.convertService
           conversion.KeyFunc example.keyOf example.synced [0; 1]%nat
           example.webService
           model.EventUpdate []).
  reflexivity.
Defined.

Lemma instance_callbacks_in_registration_order_witness :
  let c' := foldl (fun c0 f => fst (AppendInstanceHandler c0 f))
              example.synced [0; 1]%nat in
  Apply conversion.convertService conversion.KeyFunc example.keyOf c'
    (handler (endpoints c')) (ObjEndpoints example.webEndpoints)
    model.EventAdd []
  = ([InstanceCall 0
        {| model.Endpoint := model.NetworkEndpoint_zero;
           model.Service_ := Some example.web;
           model.Tags := ∅;
           model.AvailabilityZone := "" |}
        model.EventAdd;
      InstanceCall 1
        {| model.Endpoint := model.NetworkEndpoint_zero;
           model.Service_ := Some example.web;
           model.Tags := ∅;
           model.AvailabilityZone := "" |}
        model.EventAdd],
     Return None).
Proof.
  apply (instance_callbacks_in_registration_order conversion.convertService
           conversion.KeyFunc example.keyOf example.synced [0; 1]%nat
           example.webEndpoints model.EventAdd []).
  reflexivity.
Defined.

Lemma HostInstances_in_Instances_witness :
  ∃ ep svcPort,
    In ep (cache.List (cache.GetStore (informer (endpoints example.synced))))
    ∧ model.ServicePort (model.Endpoint example.webInstance) = Some svcPort
    ∧ ∀ hostname ports,
        conversion.parseHostname hostname
        = Some (v1.Name (v1.Endpoints_ObjectMeta ep),
                v1.Namespace (v1.Endpoints_ObjectMeta ep)) →
        endpointsEntry example.synced (v1.Name (v1.Endpoints_ObjectMeta ep))
          (v1.Namespace (v1.Endpoints_ObjectMeta ep)) ep →
        In (model.Port_Name svcPort) ports →
        In example.webInstance
           (Instances conversion.parseHostname conversion.convertService
              conversion.KeyFunc example.synced hostname ports []).
Proof.
  apply (HostInstances_in_Instances conversion.parseHostname
           conversion.convertService conversion.KeyFunc example.synced
           {[ "10.0.0.1" := true ]} example.webInstance).
  vm_compute. left. reflexivity.
Defined.
